(** * The ASCII composer of librime: [src/rime/gear/ascii_composer.cc]

    A shallow embedding of the key-event processor that switches between
    native composition and ASCII input, and the properties of its
    specification that are checked against it.

    The component mutates three things: its own fields, the [Context] of
    the engine it belongs to, and the slot it keeps connected to the
    context's update notifier. They are modelled by explicit state passing:
    a method [R AsciiComposer::f(args)] becomes a function
    [f st args : R * AsciiComposer], a helper on [Context* ctx] a function on
    [Context]. *)

From Stdlib Require Import ZArith Bool List Ascii String Lia.
From stdpp Require Import gmap strings list fin_maps.
Import ListNotations.

Local Open Scope string_scope.
Local Open Scope Z_scope.
Local Open Scope list_scope.

(** ** Key events *)

(** [rime/key_event.h]: a key event is a key code (an X11 keysym) and a word
    of modifier bits. *)
Record KeyEvent := mkKeyEvent { keycode : Z; modifier : Z }.

(** Modelled from the spec: the header with the modifier masks is not among
    the sources. The specification's key event carries the boolean flags
    release, shift, ctrl, alt, super and caps; each is one bit of the
    modifier word, at the position the X11 and IBus masks give it. *)
Definition kShiftMask : Z := Z.shiftl 1 0.
Definition kLockMask : Z := Z.shiftl 1 1.
Definition kControlMask : Z := Z.shiftl 1 2.
Definition kAltMask : Z := Z.shiftl 1 3.
Definition kSuperMask : Z := Z.shiftl 1 26.
Definition kReleaseMask : Z := Z.shiftl 1 30.

Definition has_modifier (mask : Z) (ke : KeyEvent) : bool :=
  negb (Z.land (modifier ke) mask =? 0).

Definition shift : KeyEvent -> bool := has_modifier kShiftMask.
Definition ctrl : KeyEvent -> bool := has_modifier kControlMask.
Definition alt : KeyEvent -> bool := has_modifier kAltMask.
Definition caps : KeyEvent -> bool := has_modifier kLockMask.
Definition super : KeyEvent -> bool := has_modifier kSuperMask.
Definition release : KeyEvent -> bool := has_modifier kReleaseMask.

(** Modelled from the spec: the keysym constants come from the X11 keysym
    table, which is not among the sources. Printable keys are the ASCII
    range from space to tilde, lowercase letters are a to z. *)
Definition XK_space : Z := 0x20.
Definition XK_asciitilde : Z := 0x7e.
Definition XK_a : Z := 0x61.
Definition XK_z : Z := 0x7a.
Definition XK_BackSpace : Z := 0xff08.
Definition XK_Return : Z := 0xff0d.
Definition XK_Eisu_toggle : Z := 0xff30.
Definition XK_Shift_L : Z := 0xffe1.
Definition XK_Shift_R : Z := 0xffe2.
Definition XK_Control_L : Z := 0xffe3.
Definition XK_Control_R : Z := 0xffe4.
Definition XK_Caps_Lock : Z := 0xffe5.
Definition XK_Delete : Z := 0xffff.

(** ** Results and switch styles *)

(** [rime/processor.h]: what a processor answers for a key event. *)
Inductive ProcessResult := kRejected | kAccepted | kNoop.

(** [rime/gear/ascii_composer.h] *)
Inductive AsciiModeSwitchStyle :=
| kAsciiModeSwitchNoop
| kAsciiModeSwitchInline
| kAsciiModeSwitchCommitText
| kAsciiModeSwitchCommitCode
| kAsciiModeSwitchClear.

#[global] Instance ProcessResult_eq_dec : EqDecision ProcessResult.
Proof. solve_decision. Defined.

#[global] Instance AsciiModeSwitchStyle_eq_dec : EqDecision AsciiModeSwitchStyle.
Proof. solve_decision. Defined.

Definition is_noop_style (s : AsciiModeSwitchStyle) : bool :=
  match s with kAsciiModeSwitchNoop => true | _ => false end.

(** The table [ascii_mode_switch_styles]; its last row, with the null name,
    is the value the search ends on. *)
Definition ascii_mode_switch_styles : list (string * AsciiModeSwitchStyle) :=
  [ ("inline_ascii", kAsciiModeSwitchInline);
    ("commit_text", kAsciiModeSwitchCommitText);
    ("commit_code", kAsciiModeSwitchCommitCode);
    ("clear", kAsciiModeSwitchClear) ].

(** [while (p->repr && p->repr != value->str()) ++p;] then [p->style]. *)
Fixpoint find_style (p : list (string * AsciiModeSwitchStyle)) (value : string)
  : AsciiModeSwitchStyle :=
  match p with
  | [] => kAsciiModeSwitchNoop
  | (repr, style) :: p' =>
      if String.eqb repr value then style else find_style p' value
  end.

(** ** Character classes *)

Definition IsPrintable (ch : Z) : bool :=
  (XK_space <=? ch) && (ch <=? XK_asciitilde).

Definition IsLower (ch : Z) : bool :=
  (XK_a <=? ch) && (ch <=? XK_z).

(** [MayProcessTransform]: the first [switch] lists the keys that are
    transformed in every mode, the second those that are transformed only
    when temp_ascii is off. The cases are written by their character
    codes: comma 44, caret 94, backslash 92, double quote 34, exclamation
    mark 33, question mark 63, semicolon 59; then full stop 46, apostrophe
    39, less-than 60, greater-than 62, colon 58, parentheses 40 and 41,
    square brackets 91 and 93, braces 123 and 125. *)
Definition MayProcessTransform (ch : Z) (optional : bool) : bool :=
  match ch with
  | 44 | 94 | 92 | 34 | 33 | 63 | 59 => true
  | _ =>
      if optional then
        match ch with
        | 46 | 39 | 60 | 62 | 58 | 40 | 41 | 91 | 93 | 123 | 125 => true
        | _ => false
        end
      else false
  end.

(** A [char] of a [std::string] read as an [int]: the bytes from 128 on are
    negative where [char] is signed. *)
Definition char_to_int (c : ascii) : Z :=
  let n := Z.of_N (N_of_ascii c) in
  if n <? 128 then n else n - 256.

Fixpoint string_chars (s : string) : list ascii :=
  match s with
  | EmptyString => []
  | String c s' => c :: string_chars s'
  end.

(** [all_of(latest.cbegin(), latest.cend(), IsPrintable)] *)
Definition all_printable (latest : string) : bool :=
  forallb (fun c => IsPrintable (char_to_int c)) (string_chars latest).

(** The C library's character classes in the C locale, on the values for
    which [ProcessCapsLock] consults them. *)
Definition isascii (ch : Z) : bool := (0 <=? ch) && (ch <=? 127).
Definition islower (ch : Z) : bool := (97 <=? ch) && (ch <=? 122).
Definition isupper (ch : Z) : bool := (65 <=? ch) && (ch <=? 90).
Definition isalpha (ch : Z) : bool := islower ch || isupper ch.
Definition toupper (ch : Z) : Z := if islower ch then ch - 32 else ch.
Definition tolower (ch : Z) : Z := if isupper ch then ch + 32 else ch.

(** [string(1, ch)] *)
Definition string_of_char (ch : Z) : string :=
  String (ascii_of_N (Z.to_N ch)) EmptyString.

(** ** Configuration data *)

(** [rime/config.h]: an item of a configuration map is a scalar value, which
    has a string, or something else (null, a list, a map). *)
Inductive ConfigItem :=
| ConfigValue (str : string)
| ConfigNonScalar.

(** [As<ConfigValue>(item)]: the value, or null. *)
Definition As_ConfigValue (item : ConfigItem) : option string :=
  match item with
  | ConfigValue str => Some str
  | ConfigNonScalar => None
  end.

(** A [ConfigMap] in the order its iterator visits it. *)
Definition ConfigMap : Type := list (string * ConfigItem).

(** What [LoadConfig] reads from a [Config]: the answers of
    [GetBool("ascii_composer/good_old_caps_lock")] and of
    [GetMap("ascii_composer/switch_key")], absent when the setting is. *)
Record Config := mkConfig {
  get_good_old_caps_lock : option bool;
  get_switch_key : option ConfigMap
}.

(** ** Calls on the collaborators *)

(** The calls the component makes on the context, its commit history, the
    engine and the update notifier are recorded, oldest first, next to their
    effect: the record is what tells a cancelled and re-installed
    subscription from one that was left in place, and in which order options
    and commit history were touched. *)
Inductive Call :=
| CSetOption (name : string) (value : bool)
| CHistoryClear
| CPushInput (ch : Z)
| CClear
| CConfirmCurrentSelection
| CClearNonConfirmedComposition
| CCommit
| CCommitText (text : string)
| CConnect
| CDisconnect.

#[global] Instance Call_eq_dec : EqDecision Call.
Proof. solve_decision. Defined.

(** ** The collaborators *)

(** Modelled from the spec: the composition engine is an external
    collaborator (spec, sections 1 and 6), none of whose code is among the
    sources. Its composition state is an opaque type and the operations the
    component consumes are the members of an interface: [is_composing],
    [push_input], [clear], [confirm_current_selection],
    [clear_non_confirmed_composition] and [commit] act on the composition,
    [commit] and the engine's [commit_text] may also append to the commit
    history. None of them touches the option store. [Parse] is
    [KeyEvent::Parse], which fails or fills in a key event. *)
Class Collaborators := {
  Composition : Type;
  is_composing : Composition -> bool;
  push_input : Z -> Composition -> Composition;
  clear : Composition -> Composition;
  confirm_current_selection : Composition -> Composition;
  clear_non_confirmed_composition : Composition -> Composition;
  commit : Composition -> list string -> Composition * list string;
  commit_text : string -> list string -> list string;
  Parse : string -> option KeyEvent
}.

Section Composer.

Context `{Collaborators}.

(** ** The context *)

(** [rime/context.h], the part the component uses: the named boolean
    options, the composition (input and segments), and the commit history,
    here the texts of its records with the latest last. *)
Record Context := mkContext {
  options : gmap string bool;
  composition : Composition;
  commit_history : list string;
  calls : list Call
}.

(** [ctx->get_option(name)]: an option that was never set is false. *)
Definition get_option (ctx : Context) (name : string) : bool :=
  default false (options ctx !! name).

Definition set_option (name : string) (value : bool) (ctx : Context) : Context :=
  {| options := <[name := value]> (options ctx);
     composition := composition ctx;
     commit_history := commit_history ctx;
     calls := calls ctx ++ [CSetOption name value] |}.

(** [ctx->commit_history().clear()] *)
Definition commit_history_clear (ctx : Context) : Context :=
  {| options := options ctx;
     composition := composition ctx;
     commit_history := [];
     calls := calls ctx ++ [CHistoryClear] |}.

(** [ctx->commit_history().latest_text()]: the text of the last record, the
    empty string when there is none. *)
Definition latest_text (ctx : Context) : string :=
  List.last (commit_history ctx) EmptyString.

Definition IsComposing (ctx : Context) : bool := is_composing (composition ctx).

(** An operation of the composition engine that changes the composition only. *)
Definition on_composition (c : Call) (f : Composition -> Composition)
    (ctx : Context) : Context :=
  {| options := options ctx;
     composition := f (composition ctx);
     commit_history := commit_history ctx;
     calls := calls ctx ++ [c] |}.

Definition PushInput (ch : Z) : Context -> Context :=
  on_composition (CPushInput ch) (push_input ch).
Definition Clear : Context -> Context := on_composition CClear clear.
Definition ConfirmCurrentSelection : Context -> Context :=
  on_composition CConfirmCurrentSelection confirm_current_selection.
Definition ClearNonConfirmedComposition : Context -> Context :=
  on_composition CClearNonConfirmedComposition clear_non_confirmed_composition.

Definition Commit (ctx : Context) : Context :=
  let '(c, h) := commit (composition ctx) (commit_history ctx) in
  {| options := options ctx;
     composition := c;
     commit_history := h;
     calls := calls ctx ++ [CCommit] |}.

(** [engine_->CommitText(text)] *)
Definition CommitText (text : string) (ctx : Context) : Context :=
  {| options := options ctx;
     composition := composition ctx;
     commit_history := commit_text text (commit_history ctx);
     calls := calls ctx ++ [CCommitText text] |}.

(** ** Temporary ASCII mode *)

Definition TempAsciiOff (ctx : Context) : Context :=
  commit_history_clear (set_option "temp_ascii" false ctx).

Definition TempAsciiOn (ctx : Context) : Context :=
  commit_history_clear (set_option "temp_ascii" true ctx).

Definition TempAsciiProcess (ctx : Context) (key_event : KeyEvent)
  : ProcessResult * Context :=
  let ch := keycode key_event in
  if release key_event || (ch =? XK_BackSpace) || (ch =? XK_Delete) then
    (kNoop, ctx)
  else
    let composing := IsComposing ctx in
    if negb composing && (ch =? XK_space) && shift key_event then
      (kNoop, ctx)
    else if get_option ctx "temp_ascii" then
      if composing then (kNoop, ctx)
      else if (ch =? XK_space) || negb (IsPrintable ch)
              || MayProcessTransform ch false then
        (kNoop, TempAsciiOff ctx)
      else (kRejected, ctx)
    else if composing then
      if ch =? XK_Return then
        let latest := latest_text ctx in
        if all_printable latest then (kNoop, TempAsciiOn ctx)
        else (kNoop, ctx)
      else (kNoop, ctx)
    else
      if IsLower ch || negb (IsPrintable ch) || MayProcessTransform ch true then
        (kNoop, ctx)
      else (kRejected, TempAsciiOn ctx).

(** ** The composer *)

(** [rime/gear/ascii_composer.h]: the fields of [AsciiComposer]. [context]
    is [engine_->context()]; [connection_] is true while the slot that calls
    [OnContextUpdate] is connected to the context's update notifier;
    [toggle_expired_] is a reading of the steady clock, in milliseconds. *)
Record AsciiComposer := mkAsciiComposer {
  context : Context;
  bindings_ : gmap Z AsciiModeSwitchStyle;
  caps_lock_switch_style_ : AsciiModeSwitchStyle;
  good_old_caps_lock_ : bool;
  toggle_with_caps_ : bool;
  shift_key_pressed_ : bool;
  ctrl_key_pressed_ : bool;
  toggle_expired_ : Z;
  connection_ : bool
}.

Definition with_context (f : Context -> Context) (st : AsciiComposer)
  : AsciiComposer :=
  {| context := f (context st);
     bindings_ := bindings_ st;
     caps_lock_switch_style_ := caps_lock_switch_style_ st;
     good_old_caps_lock_ := good_old_caps_lock_ st;
     toggle_with_caps_ := toggle_with_caps_ st;
     shift_key_pressed_ := shift_key_pressed_ st;
     ctrl_key_pressed_ := ctrl_key_pressed_ st;
     toggle_expired_ := toggle_expired_ st;
     connection_ := connection_ st |}.

(** [shift_key_pressed_ = s; ctrl_key_pressed_ = c;] *)
Definition set_key_pressed (s c : bool) (st : AsciiComposer) : AsciiComposer :=
  {| context := context st;
     bindings_ := bindings_ st;
     caps_lock_switch_style_ := caps_lock_switch_style_ st;
     good_old_caps_lock_ := good_old_caps_lock_ st;
     toggle_with_caps_ := toggle_with_caps_ st;
     shift_key_pressed_ := s;
     ctrl_key_pressed_ := c;
     toggle_expired_ := toggle_expired_ st;
     connection_ := connection_ st |}.

Definition set_toggle_with_caps (b : bool) (st : AsciiComposer) : AsciiComposer :=
  {| context := context st;
     bindings_ := bindings_ st;
     caps_lock_switch_style_ := caps_lock_switch_style_ st;
     good_old_caps_lock_ := good_old_caps_lock_ st;
     toggle_with_caps_ := b;
     shift_key_pressed_ := shift_key_pressed_ st;
     ctrl_key_pressed_ := ctrl_key_pressed_ st;
     toggle_expired_ := toggle_expired_ st;
     connection_ := connection_ st |}.

Definition set_toggle_expired (t : Z) (st : AsciiComposer) : AsciiComposer :=
  {| context := context st;
     bindings_ := bindings_ st;
     caps_lock_switch_style_ := caps_lock_switch_style_ st;
     good_old_caps_lock_ := good_old_caps_lock_ st;
     toggle_with_caps_ := toggle_with_caps_ st;
     shift_key_pressed_ := shift_key_pressed_ st;
     ctrl_key_pressed_ := ctrl_key_pressed_ st;
     toggle_expired_ := t;
     connection_ := connection_ st |}.

Definition log_call (c : Call) (ctx : Context) : Context :=
  {| options := options ctx;
     composition := composition ctx;
     commit_history := commit_history ctx;
     calls := calls ctx ++ [c] |}.

Definition set_connection (b : bool) (c : Call) (st : AsciiComposer)
  : AsciiComposer :=
  {| context := log_call c (context st);
     bindings_ := bindings_ st;
     caps_lock_switch_style_ := caps_lock_switch_style_ st;
     good_old_caps_lock_ := good_old_caps_lock_ st;
     toggle_with_caps_ := toggle_with_caps_ st;
     shift_key_pressed_ := shift_key_pressed_ st;
     ctrl_key_pressed_ := ctrl_key_pressed_ st;
     toggle_expired_ := toggle_expired_ st;
     connection_ := b |}.

(** [connection_.disconnect()] *)
Definition disconnect : AsciiComposer -> AsciiComposer :=
  set_connection false CDisconnect.

(** [connection_ = ctx->update_notifier().connect(...)], the slot being a
    call of [OnContextUpdate]. *)
Definition connect : AsciiComposer -> AsciiComposer :=
  set_connection true CConnect.

Definition OnContextUpdate (st : AsciiComposer) : AsciiComposer :=
  if negb (IsComposing (context st)) then
    with_context (set_option "ascii_mode" false) (disconnect st)
  else st.

(** The context's update notifier fires: the slot runs if it is connected. *)
Definition update_notifier (st : AsciiComposer) : AsciiComposer :=
  if connection_ st then OnContextUpdate st else st.

(** An operation of the context that changes the composition, followed by
    the update notification the composition engine sends for it. Where
    [SwitchAsciiMode] uses it the slot has just been disconnected, so that
    the notification finds nothing to run, whichever operations send one. *)
Definition updating (f : Context -> Context) (st : AsciiComposer)
  : AsciiComposer :=
  update_notifier (with_context f st).

Definition SwitchAsciiMode (st : AsciiComposer) (ascii_mode : bool)
    (style : AsciiModeSwitchStyle) : AsciiComposer :=
  let st :=
    if IsComposing (context st) then
      let st := disconnect st in
      match style with
      | kAsciiModeSwitchInline => if ascii_mode then connect st else st
      | kAsciiModeSwitchCommitText => updating ConfirmCurrentSelection st
      | kAsciiModeSwitchCommitCode =>
          updating Commit (updating ClearNonConfirmedComposition st)
      | kAsciiModeSwitchClear => updating Clear st
      | kAsciiModeSwitchNoop => st
      end
    else st in
  with_context (set_option "ascii_mode" ascii_mode) st.

Definition ToggleAsciiModeWithKey (st : AsciiComposer) (key_code : Z)
  : bool * AsciiComposer :=
  match bindings_ st !! key_code with
  | None => (false, st)
  | Some style =>
      let ascii_mode := negb (get_option (context st) "ascii_mode") in
      let st := SwitchAsciiMode st ascii_mode style in
      (true, set_toggle_with_caps (key_code =? XK_Caps_Lock) st)
  end.

Definition ProcessCapsLock (st : AsciiComposer) (key_event : KeyEvent)
  : ProcessResult * AsciiComposer :=
  let ch := keycode key_event in
  if ch =? XK_Caps_Lock then
    if negb (release key_event) then
      let st := set_key_pressed false false st in
      let toggle :=
        let st := set_toggle_with_caps (negb (caps key_event)) st in
        (kAccepted,
         SwitchAsciiMode st (negb (caps key_event)) (caps_lock_switch_style_ st))
      in
      if good_old_caps_lock_ st && negb (toggle_with_caps_ st) then
        let ascii_mode := get_option (context st) "ascii_mode" in
        if ascii_mode then (kRejected, st) else toggle
      else toggle
    else (kRejected, st)
  else if caps key_event then
    if negb (good_old_caps_lock_ st) && negb (release key_event)
       && negb (ctrl key_event) && isascii ch && isalpha ch then
      let ch := if islower ch then toupper ch
                else if isupper ch then tolower ch else ch in
      (kAccepted, with_context (CommitText (string_of_char ch)) st)
    else (kRejected, st)
  else (kNoop, st).

(** [std::chrono::milliseconds(500)] *)
Definition toggle_duration_limit : Z := 500.

(** [now] is what [std::chrono::steady_clock::now()] answers while the event
    is processed, in milliseconds. *)
Definition ProcessKeyEvent (st : AsciiComposer) (now : Z) (key_event : KeyEvent)
  : ProcessResult * AsciiComposer :=
  if (shift key_event && ctrl key_event) || alt key_event || super key_event
  then
    (kNoop, with_context TempAsciiOff (set_key_pressed false false st))
  else
    let '(result, st) :=
      if negb (is_noop_style (caps_lock_switch_style_ st))
      then ProcessCapsLock st key_event else (kNoop, st) in
    match result with
    | kRejected | kAccepted => (result, st)
    | kNoop =>
      let ch := keycode key_event in
      if ch =? XK_Eisu_toggle then
        if negb (release key_event) then
          let st := set_key_pressed false false st in
          (kAccepted, snd (ToggleAsciiModeWithKey st ch))
        else (kRejected, st)
      else
        let is_shift := (ch =? XK_Shift_L) || (ch =? XK_Shift_R) in
        let is_ctrl := (ch =? XK_Control_L) || (ch =? XK_Control_R) in
        if is_shift || is_ctrl then
          if release key_event then
            if shift_key_pressed_ st || ctrl_key_pressed_ st then
              let st :=
                if ((is_shift && shift_key_pressed_ st)
                    || (is_ctrl && ctrl_key_pressed_ st))
                   && (now <? toggle_expired_ st) then
                  let st := with_context TempAsciiOff st in
                  if ch =? XK_Shift_R then
                    SwitchAsciiMode st false kAsciiModeSwitchNoop
                  else snd (ToggleAsciiModeWithKey st ch)
                else st in
              (kNoop, set_key_pressed false false st)
            else (kNoop, st)
          else if negb (shift_key_pressed_ st || ctrl_key_pressed_ st) then
            let st :=
              if is_shift then set_key_pressed true (ctrl_key_pressed_ st) st
              else set_key_pressed (shift_key_pressed_ st) true
                     (with_context TempAsciiOff st) in
            (kNoop, set_toggle_expired (now + toggle_duration_limit) st)
          else (kNoop, st)
        else
          let st := set_key_pressed false false st in
          let ascii_mode := get_option (context st) "ascii_mode" in
          let temp_ascii :=
            let '(r, ctx) := TempAsciiProcess (context st) key_event in
            (r, with_context (fun _ => ctx) st) in
          if ascii_mode then
            if negb (IsComposing (context st)) then (kRejected, st)
            else if negb (release key_event) && (0x20 <=? ch) && (ch <? 0x80)
            then (kAccepted, updating (PushInput ch) st)
            else temp_ascii
          else temp_ascii
    end.

(** ** Loading the configuration *)

(** One turn of the loop of [load_bindings]. *)
Definition load_binding (dest : gmap Z AsciiModeSwitchStyle)
    (it : string * ConfigItem) : gmap Z AsciiModeSwitchStyle :=
  match As_ConfigValue (snd it) with
  | None => dest
  | Some value =>
      let style := find_style ascii_mode_switch_styles value in
      if is_noop_style style then dest
      else
        match Parse (fst it) with
        | None => dest
        | Some ke =>
            if negb (modifier ke =? 0) then dest
            else <[keycode ke := style]> dest
        end
  end.

Definition load_bindings (src : option ConfigMap)
    (dest : gmap Z AsciiModeSwitchStyle) : gmap Z AsciiModeSwitchStyle :=
  match src with
  | None => dest
  | Some entries => fold_left load_binding entries dest
  end.

Definition set_config (b : gmap Z AsciiModeSwitchStyle)
    (style : AsciiModeSwitchStyle) (good_old : bool) (st : AsciiComposer)
  : AsciiComposer :=
  {| context := context st;
     bindings_ := b;
     caps_lock_switch_style_ := style;
     good_old_caps_lock_ := good_old;
     toggle_with_caps_ := toggle_with_caps_ st;
     shift_key_pressed_ := shift_key_pressed_ st;
     ctrl_key_pressed_ := ctrl_key_pressed_ st;
     toggle_expired_ := toggle_expired_ st;
     connection_ := connection_ st |}.

(** [schema] is null or gives the schema's configuration; [preset_config]
    is what [Config::Require("config")->Create("default")] gives, null or
    the default configuration. *)
Definition LoadConfig (st : AsciiComposer) (schema : option Config)
    (preset_config : option Config) : AsciiComposer :=
  match schema with
  | None => set_config ∅ kAsciiModeSwitchNoop false st
  | Some config =>
      let good_old :=
        match get_good_old_caps_lock config with
        | Some b => b
        | None =>
            match preset_config with
            | Some preset => default false (get_good_old_caps_lock preset)
            | None => false
            end
        end in
      let preset_bindings :=
        match preset_config with
        | Some preset => get_switch_key preset
        | None => None
        end in
      match get_switch_key config, preset_bindings with
      | Some bindings, _ | None, Some bindings =>
          let b := load_bindings (Some bindings) ∅ in
          let style :=
            match b !! XK_Caps_Lock with
            | Some kAsciiModeSwitchInline => kAsciiModeSwitchClear
            | Some style => style
            | None => kAsciiModeSwitchNoop
            end in
          set_config b style good_old st
      | None, None => set_config ∅ kAsciiModeSwitchNoop good_old st
      end
  end.

End Composer.

(** ** Vocabulary of the properties *)

(** The key event is the shift+ctrl chord, or has alt or super asserted:
    the first test of [ProcessKeyEvent]. *)
Definition is_chord (key_event : KeyEvent) : bool :=
  (shift key_event && ctrl key_event) || alt key_event || super key_event.

(** The call sets the option of that name. *)
Definition sets_option (name : string) (c : Call) : bool :=
  match c with
  | CSetOption n _ => String.eqb n name
  | _ => false
  end.

(** How many times the calls set the option of that name. *)
Definition count_sets (name : string) (l : list Call) : nat :=
  length (List.filter (sets_option name) l).

(** In a sequence of calls, every call that sets temp_ascii is followed at
    once by the call that clears the commit history. *)
Fixpoint temp_ascii_cleared (l : list Call) : bool :=
  match l with
  | [] => true
  | c :: l' =>
      if sets_option "temp_ascii" c then
        match l' with
        | CHistoryClear :: _ => temp_ascii_cleared l'
        | _ => false
        end
      else temp_ascii_cleared l'
  end.

(** The calls [SwitchAsciiMode] makes before it sets ascii_mode. *)
Definition switch_calls (composing : bool) (ascii_mode : bool)
    (style : AsciiModeSwitchStyle) : list Call :=
  if composing then
    CDisconnect ::
    match style with
    | kAsciiModeSwitchInline => if ascii_mode then [CConnect] else []
    | kAsciiModeSwitchCommitText => [CConfirmCurrentSelection]
    | kAsciiModeSwitchCommitCode => [CClearNonConfirmedComposition; CCommit]
    | kAsciiModeSwitchClear => [CClear]
    | kAsciiModeSwitchNoop => []
    end
  else [].

(** In a sequence of calls, every call that connects a slot comes right
    after the call that disconnects the previous one; [disconnected] tells
    whether the call before the sequence was a disconnection. *)
Fixpoint connects_after_disconnect (disconnected : bool) (l : list Call)
  : bool :=
  match l with
  | [] => true
  | CConnect :: l' => disconnected && connects_after_disconnect false l'
  | CDisconnect :: l' => connects_after_disconnect true l'
  | _ :: l' => connects_after_disconnect false l'
  end.


(** The transform triggers as the specification lists them, by character
    code. Mandatory, in both states: comma 44, caret 94, backslash 92,
    double quote 34, exclamation mark 33, question mark 63, semicolon 59.
    Optional, while temp_ascii is off: full stop 46, apostrophe 39,
    less-than 60, greater-than 62, colon 58, parentheses 40 and 41, square
    brackets 91 and 93, braces 123 and 125. They are what the cases of
    [MayProcessTransform] are compared with. *)
Definition spec_mandatory_triggers : list Z :=
  [44; 94; 92; 34; 33; 63; 59].
Definition spec_optional_triggers : list Z :=
  [46; 39; 60; 62; 58; 40; 41; 91; 93; 123; 125].

(** The two tests [is_shift] and [is_ctrl] of [ProcessKeyEvent]. *)
Definition is_shift_key (ch : Z) : bool :=
  (ch =? XK_Shift_L) || (ch =? XK_Shift_R).
Definition is_ctrl_key (ch : Z) : bool :=
  (ch =? XK_Control_L) || (ch =? XK_Control_R).


Section Vocabulary.

Context `{Collaborators}.

(** The calls made from [before] to [after] are [l]. *)
Definition calls_from (before after : Context) (l : list Call) : Prop :=
  calls after = calls before ++ l.

(** From [before] to [after], temp_ascii was never set without the commit
    history being cleared next. *)
Definition clears_with_temp_ascii (before after : Context) : Prop :=
  exists l, calls_from before after l /\ temp_ascii_cleared l = true.

(** The two key events of a tap, processed one after the other: the state
    between them, the answer to the second and the state it leaves. *)
Definition process_two (st : AsciiComposer) (now1 : Z) (ke1 : KeyEvent)
    (now2 : Z) (ke2 : KeyEvent) : AsciiComposer * ProcessResult * AsciiComposer :=
  let st1 := snd (ProcessKeyEvent st now1 ke1) in
  let '(r, st2) := ProcessKeyEvent st1 now2 ke2 in
  (st1, r, st2).

(** What [SwitchAsciiMode] does to a composition in progress, once the
    slot is disconnected: no update notification reaches the composer. *)
Definition switch_effect (st : AsciiComposer) (ascii_mode : bool)
    (style : AsciiModeSwitchStyle) : AsciiComposer :=
  match style with
  | kAsciiModeSwitchInline =>
      if ascii_mode then connect (disconnect st) else disconnect st
  | kAsciiModeSwitchCommitText =>
      with_context ConfirmCurrentSelection (disconnect st)
  | kAsciiModeSwitchCommitCode =>
      with_context Commit
        (with_context ClearNonConfirmedComposition (disconnect st))
  | kAsciiModeSwitchClear => with_context Clear (disconnect st)
  | kAsciiModeSwitchNoop => disconnect st
  end.

(** The entry of the configuration map is accepted by [load_bindings], as a
    binding of key code [k] to style [s]: its value is a scalar that names a
    style other than the no-op one, and its key parses to [k] with no
    modifier bit set. *)
Definition accepted_as (it : string * ConfigItem) (k : Z)
    (s : AsciiModeSwitchStyle) : Prop :=
  exists value ke,
    As_ConfigValue (snd it) = Some value
    /\ find_style ascii_mode_switch_styles value = s
    /\ s <> kAsciiModeSwitchNoop
    /\ Parse (fst it) = Some ke
    /\ modifier ke = 0
    /\ keycode ke = k.

(** The entry is one of those the specification has dropped: its key does
    not parse, or parses with a modifier bit set, or its value is not a
    scalar, or the name it gives is not the name of a style, as is the case
    of noop. *)
Definition dropped (it : string * ConfigItem) : Prop :=
  Parse (fst it) = None
  \/ (exists ke, Parse (fst it) = Some ke /\ modifier ke <> 0)
  \/ As_ConfigValue (snd it) = None
  \/ (exists value, As_ConfigValue (snd it) = Some value
      /\ find_style ascii_mode_switch_styles value = kAsciiModeSwitchNoop).



(** A run: the key events are processed one after the other, each with the
    reading of the clock at the time. *)
Fixpoint process_all (st : AsciiComposer) (events : list (Z * KeyEvent))
  : AsciiComposer :=
  match events with
  | [] => st
  | (now, key_event) :: events' =>
      process_all (snd (ProcessKeyEvent st now key_event)) events'
  end.

(** The settings [LoadConfig] computes are the same in both composers. *)
Definition same_configuration (st st' : AsciiComposer) : Prop :=
  bindings_ st' = bindings_ st
  /\ caps_lock_switch_style_ st' = caps_lock_switch_style_ st
  /\ good_old_caps_lock_ st' = good_old_caps_lock_ st.

(** At most one of the two modifier keys is tracked. *)
Definition tracks_at_most_one (st : AsciiComposer) : Prop :=
  shift_key_pressed_ st && ctrl_key_pressed_ st = false.


(** The composer [st] with another context, another value of
    [toggle_with_caps_] and another state of the connection: what a mode
    switch may change. *)
Definition rebuilt (st : AsciiComposer) (ctx : Context) (twc conn : bool)
  : AsciiComposer :=
  {| context := ctx;
     bindings_ := bindings_ st;
     caps_lock_switch_style_ := caps_lock_switch_style_ st;
     good_old_caps_lock_ := good_old_caps_lock_ st;
     toggle_with_caps_ := twc;
     shift_key_pressed_ := shift_key_pressed_ st;
     ctrl_key_pressed_ := ctrl_key_pressed_ st;
     toggle_expired_ := toggle_expired_ st;
     connection_ := conn |}.

(** How one key event may change the two tracking flags, from [s0], [c0] to
    [s], [c]: not at all, or both are cleared, or one is set when none was. *)
Definition tracking_step (s0 c0 s c : bool) : Prop :=
  (s = s0 /\ c = c0)
  \/ (s = false /\ c = false)
  \/ (s0 = false /\ c0 = false /\ xorb s c = true).


(** The groups of calls the component makes: the two calls of [TempAsciiOn]
    and [TempAsciiOff]; the calls of a mode switch; the two calls of the
    update slot when the composition has become empty; a direct commit; a
    key pushed to the input. *)
Inductive call_block : list Call -> Prop :=
| block_temp_ascii (value : bool) :
    call_block [CSetOption "temp_ascii" value; CHistoryClear]
| block_switch (composing ascii_mode : bool) (style : AsciiModeSwitchStyle) :
    call_block (switch_calls composing ascii_mode style
                  ++ [CSetOption "ascii_mode" ascii_mode])
| block_update :
    call_block [CDisconnect; CSetOption "ascii_mode" false]
| block_commit_text (text : string) :
    call_block [CCommitText text]
| block_push_input (ch : Z) :
    call_block [CPushInput ch].

(** From [before] to [after] the calls made are a sequence of such groups. *)
Definition calls_in_blocks (before after : Context) : Prop :=
  exists blocks, Forall call_block blocks
                 /\ calls_from before after (concat blocks).


(** The key event gets past the caps-lock handler: no caps-lock switch style
    is configured, or the key is not Caps_Lock and the caps flag is clear. *)
Definition passes_caps_lock (st : AsciiComposer) (key_event : KeyEvent)
  : Prop :=
  caps_lock_switch_style_ st = kAsciiModeSwitchNoop
  \/ (keycode key_event <> XK_Caps_Lock /\ caps key_event = false).


End Vocabulary.

(** ** A small instance of the collaborators

    The properties below hold for every composition engine. To run the
    component on concrete key events, the interface is instantiated with a
    small engine: the composition is the list of the key codes typed so far;
    committing appends one record to the commit history and empties the
    composition; a key is named by one character or by a name optionally
    preceded by modifier names joined with [+]. *)
Module Demo.

Definition keysyms : list (string * Z) :=
  [ ("space", XK_space); ("Return", XK_Return); ("BackSpace", XK_BackSpace);
    ("Delete", XK_Delete); ("Eisu_toggle", XK_Eisu_toggle);
    ("Shift_L", XK_Shift_L); ("Shift_R", XK_Shift_R);
    ("Control_L", XK_Control_L); ("Control_R", XK_Control_R);
    ("Caps_Lock", XK_Caps_Lock) ].

Definition modifiers : list (string * Z) :=
  [ ("Shift", kShiftMask); ("Lock", kLockMask); ("Control", kControlMask);
    ("Alt", kAltMask); ("Super", kSuperMask); ("Release", kReleaseMask) ].

Fixpoint assoc (name : string) (table : list (string * Z)) : option Z :=
  match table with
  | [] => None
  | (n, v) :: table' => if String.eqb n name then Some v else assoc name table'
  end.

Fixpoint tokens (repr token : string) : list string :=
  match repr with
  | EmptyString => [token]
  | String c repr' =>
      if Ascii.eqb c "+"%char then token :: tokens repr' EmptyString
      else tokens repr' (token +:+ String c EmptyString)
  end.

Fixpoint parse_tokens (ts : list string) (mods : Z) : option KeyEvent :=
  match ts with
  | [] => None
  | [name] =>
      match assoc name keysyms with
      | Some code => Some (mkKeyEvent code mods)
      | None => None
      end
  | m :: ts' =>
      match assoc m modifiers with
      | Some mask => parse_tokens ts' (Z.lor mods mask)
      | None => None
      end
  end.

Definition parse (repr : string) : option KeyEvent :=
  match repr with
  | EmptyString => None
  | String c EmptyString => Some (mkKeyEvent (Z.of_N (N_of_ascii c)) 0)
  | _ => parse_tokens (tokens repr EmptyString) 0
  end.

Definition text_of (codes : list Z) : string :=
  fold_right (fun ch s => String (ascii_of_N (Z.to_N ch)) s) EmptyString codes.

Definition engine : Collaborators :=
  {| Composition := list Z;
     is_composing := fun c => negb (Nat.eqb (length c) 0);
     push_input := fun ch c => c ++ [ch];
     clear := fun _ => [];
     confirm_current_selection := fun c => c;
     clear_non_confirmed_composition := fun c => c;
     commit := fun c h => ([], h ++ [text_of c]);
     commit_text := fun text h => h ++ [text];
     Parse := parse |}.

#[local] Existing Instance engine.

(** The switch keys of the default configuration of librime. *)
Definition switch_key : ConfigMap :=
  [ ("Caps_Lock", ConfigValue "clear");
    ("Control_L", ConfigValue "noop");
    ("Control_R", ConfigValue "noop");
    ("Eisu_toggle", ConfigValue "clear");
    ("Shift_L", ConfigValue "inline_ascii");
    ("Shift_R", ConfigValue "commit_text") ].

Definition config : Config :=
  {| get_good_old_caps_lock := Some true; get_switch_key := Some switch_key |}.

Definition new_context (ascii_mode temp_ascii : bool) (input : list Z)
    (history : list string) : Context :=
  {| options := <["temp_ascii" := temp_ascii]> (<["ascii_mode" := ascii_mode]> ∅);
     composition := input;
     commit_history := history;
     calls := [] |}.

(** A composer as its constructor leaves it, on the given context. *)
Definition new_composer (ctx : Context) : AsciiComposer :=
  LoadConfig
    {| context := ctx;
       bindings_ := ∅;
       caps_lock_switch_style_ := kAsciiModeSwitchNoop;
       good_old_caps_lock_ := false;
       toggle_with_caps_ := false;
       shift_key_pressed_ := false;
       ctrl_key_pressed_ := false;
       toggle_expired_ := 0;
       connection_ := false |}
    (Some config) None.

(** The codes of [n], [i] and [h]: a composition in progress. *)
Definition typed : list Z := [110; 105; 104].

(** A composer with nothing typed, in native mode. *)
Definition idle : AsciiComposer := new_composer (new_context false false [] []).

(** A composer with nothing typed, in ASCII mode. *)
Definition idle_ascii : AsciiComposer :=
  new_composer (new_context true false [] []).

(** A composer in the middle of a composition, in ASCII mode, temp_ascii on,
    with one record in the commit history. *)
Definition composing : AsciiComposer :=
  new_composer (new_context true true typed ["abc"]).

(** The same composer after an inline switch to ASCII mode has installed
    its subscription. *)
Definition subscribed : AsciiComposer :=
  SwitchAsciiMode composing true kAsciiModeSwitchInline.

(** The press of a key and its release, the modifier flags [mods] asserted. *)
Definition press (key mods : Z) : KeyEvent := mkKeyEvent key mods.
Definition release_of (key mods : Z) : KeyEvent :=
  mkKeyEvent key (Z.lor mods kReleaseMask).

(** The same configuration with the conventional caps lock turned off, and
    a composer loaded from it. *)
Definition config_ignoring_caps : Config :=
  {| get_good_old_caps_lock := Some false; get_switch_key := Some switch_key |}.

Definition ignoring_caps : AsciiComposer :=
  LoadConfig idle (Some config_ignoring_caps) None.

(** The idle composer with the left shift key held down since 1000 ms, and
    the composing one with the left ctrl key held down. *)
Definition shift_down : AsciiComposer :=
  snd (ProcessKeyEvent idle 1000 (press XK_Shift_L 0)).

Definition ctrl_down : AsciiComposer :=
  snd (ProcessKeyEvent composing 1000 (press XK_Control_L 0)).

(** A run: shift held while the letter a is typed, then a tap of ctrl. *)
Definition keystrokes : list (Z * KeyEvent) :=
  [ (0, press XK_Shift_L 0);
    (100, press 97 kShiftMask);
    (200, release_of 97 kShiftMask);
    (300, release_of XK_Shift_L kShiftMask);
    (400, press XK_Control_L 0);
    (450, release_of XK_Control_L kControlMask) ].


End Demo.

(** * Properties *)

Section Properties.

Context `{Collaborators}.

(** ** The option store and the call record *)

Lemma get_option_set_option_eq (ctx : Context) name value :
  get_option (set_option name value ctx) name = value.
Proof. unfold get_option, set_option; simpl. by rewrite lookup_insert_eq. Qed.

Lemma get_option_set_option_ne (ctx : Context) name name' value :
  name <> name' ->
  get_option (set_option name value ctx) name' = get_option ctx name'.
Proof.
  intros Hne. unfold get_option, set_option; simpl.
  by rewrite lookup_insert_ne.
Qed.

Lemma get_option_commit_history_clear (ctx : Context) name :
  get_option (commit_history_clear ctx) name = get_option ctx name.
Proof. reflexivity. Qed.

Lemma get_option_TempAsciiOn (ctx : Context) :
  get_option (TempAsciiOn ctx) "temp_ascii" = true.
Proof.
  unfold TempAsciiOn.
  by rewrite get_option_commit_history_clear, get_option_set_option_eq.
Qed.

Lemma get_option_TempAsciiOff (ctx : Context) :
  get_option (TempAsciiOff ctx) "temp_ascii" = false.
Proof.
  unfold TempAsciiOff.
  by rewrite get_option_commit_history_clear, get_option_set_option_eq.
Qed.

Lemma ascii_mode_TempAsciiOff (ctx : Context) :
  get_option (TempAsciiOff ctx) "ascii_mode" = get_option ctx "ascii_mode".
Proof.
  unfold TempAsciiOff.
  by rewrite get_option_commit_history_clear, get_option_set_option_ne.
Qed.

(** ** The temporary-ASCII machine *)

(** C5: while temp_ascii is on and the context is composing, the machine
    answers kNoop for every key event that is not a release, a backspace or
    a delete, and the context it leaves is the one it was given: no option
    is changed, the commit history is not cleared, no call is made. *)
Theorem temp_ascii_on_composing_is_ignored
    (ctx : Context) (key_event : KeyEvent) :
  get_option ctx "temp_ascii" = true ->
  IsComposing ctx = true ->
  release key_event = false ->
  keycode key_event <> XK_BackSpace ->
  keycode key_event <> XK_Delete ->
  TempAsciiProcess ctx key_event = (kNoop, ctx).
Proof.
  intros Hon Hcomposing Hpress Hbs Hdel. unfold TempAsciiProcess.
  apply Z.eqb_neq in Hbs, Hdel.
  rewrite Hpress, Hbs, Hdel, Hcomposing, Hon. reflexivity.
Qed.

(** The first test of the machine fails for a press of a key that is neither
    backspace nor delete. *)
Lemma not_release_nor_erase (key_event : KeyEvent) :
  release key_event = false ->
  keycode key_event <> XK_BackSpace ->
  keycode key_event <> XK_Delete ->
  release key_event || (keycode key_event =? XK_BackSpace)
    || (keycode key_event =? XK_Delete) = false.
Proof.
  intros -> Hbs Hdel.
  apply Z.eqb_neq in Hbs, Hdel. by rewrite Hbs, Hdel.
Qed.

(** The character classes of the code are those of the specification:
    lowercase letters are the codes of a to z, printable keys the codes
    from space to tilde, and the transform triggers the listed keys. *)
Lemma IsLower_range (ch : Z) : IsLower ch = true <-> 97 <= ch <= 122.
Proof. unfold IsLower, XK_a, XK_z. lia. Qed.

Lemma IsPrintable_range (ch : Z) : IsPrintable ch = true <-> 32 <= ch <= 126.
Proof. unfold IsPrintable, XK_space, XK_asciitilde. lia. Qed.

Lemma MayProcessTransform_mandatory_keys (ch : Z) :
  MayProcessTransform ch false = true <-> ch ∈ spec_mandatory_triggers.
Proof.
  rewrite list_elem_of_In. unfold spec_mandatory_triggers. simpl. split.
  - unfold MayProcessTransform. repeat case_match; intros; try done; lia.
  - intros Hin. repeat (destruct Hin as [<- | Hin]; [reflexivity|]).
    destruct Hin.
Qed.

Lemma MayProcessTransform_optional_keys (ch : Z) :
  MayProcessTransform ch true = true
  <-> ch ∈ spec_mandatory_triggers \/ ch ∈ spec_optional_triggers.
Proof.
  rewrite !list_elem_of_In.
  unfold spec_mandatory_triggers, spec_optional_triggers. simpl. split.
  - unfold MayProcessTransform. repeat case_match; intros; try done; lia.
  - intros [Hin | Hin];
      repeat (destruct Hin as [<- | Hin]; [reflexivity|]); destruct Hin.
Qed.

(** C6: while temp_ascii is off and the context is not composing, a press of
    a key other than backspace, delete and shifted space is ignored, the
    context left as it was, when the key is a lowercase letter (a to z), is
    not printable (below space or above tilde), or is a transform trigger,
    mandatory or optional, as the specification lists them; the double
    quote, a mandatory trigger, is among them. Any other key turns
    temp_ascii on, clears the commit history and is rejected. *)
Theorem temp_ascii_off_idle (ctx : Context) (key_event : KeyEvent) :
  get_option ctx "temp_ascii" = false ->
  IsComposing ctx = false ->
  release key_event = false ->
  keycode key_event <> XK_BackSpace ->
  keycode key_event <> XK_Delete ->
  ~ (keycode key_event = XK_space /\ shift key_event = true) ->
  let ch := keycode key_event in
  (97 <= ch <= 122 \/ (ch < 32 \/ 126 < ch)
   \/ ch ∈ spec_mandatory_triggers \/ ch ∈ spec_optional_triggers ->
   TempAsciiProcess ctx key_event = (kNoop, ctx))
  /\ (ch = 34 -> ch ∈ spec_mandatory_triggers
               /\ TempAsciiProcess ctx key_event = (kNoop, ctx))
  /\ (~ 97 <= ch <= 122 -> 32 <= ch <= 126 ->
      ch ∉ spec_mandatory_triggers -> ch ∉ spec_optional_triggers ->
      TempAsciiProcess ctx key_event = (kRejected, TempAsciiOn ctx)
      /\ get_option (TempAsciiOn ctx) "temp_ascii" = true
      /\ commit_history (TempAsciiOn ctx) = []).
Proof.
  intros Hoff Hidle Hpress Hbs Hdel Hspace ch.
  set (ch' := keycode key_event) in *. subst ch. rename ch' into ch.
  assert (Hshifted : (ch =? XK_space) && shift key_event = false).
  { apply andb_false_iff.
    destruct (Z.eqb_spec ch XK_space) as [Heq|]; [|by left].
    right. destruct (shift key_event); [|done].
    exfalso. by apply Hspace. }
  assert (Hrun : TempAsciiProcess ctx key_event =
    if IsLower ch || negb (IsPrintable ch) || MayProcessTransform ch true
    then (kNoop, ctx) else (kRejected, TempAsciiOn ctx)).
  { unfold TempAsciiProcess.
    rewrite (not_release_nor_erase key_event Hpress Hbs Hdel). fold ch.
    rewrite Hidle, Hoff. simpl negb. rewrite <- andb_assoc, Hshifted.
    reflexivity. }
  assert (Hquote : (34 : Z) ∈ spec_mandatory_triggers).
  { apply list_elem_of_In. simpl. tauto. }
  assert (Hpasses : 97 <= ch <= 122 \/ (ch < 32 \/ 126 < ch)
                    \/ ch ∈ spec_mandatory_triggers
                    \/ ch ∈ spec_optional_triggers ->
                    TempAsciiProcess ctx key_event = (kNoop, ctx)).
  { intros Hclass. rewrite Hrun.
    destruct Hclass as [Hlower | [Hout | Htrigger]].
    - apply IsLower_range in Hlower. by rewrite Hlower.
    - destruct (IsPrintable ch) eqn:Hprintable.
      + apply IsPrintable_range in Hprintable. lia.
      + by rewrite orb_true_r.
    - apply MayProcessTransform_optional_keys in Htrigger.
      by rewrite Htrigger, orb_true_r. }
  split; [done|]. split.
  - intros ->. split; [done|]. apply Hpasses. tauto.
  - intros Hlower Hprintable Hmandatory Hoptional.
    rewrite Hrun.
    destruct (IsLower ch) eqn:Hl.
    { exfalso. by apply Hlower, IsLower_range. }
    apply IsPrintable_range in Hprintable. rewrite Hprintable.
    destruct (MayProcessTransform ch true) eqn:Ht.
    { apply MayProcessTransform_optional_keys in Ht. tauto. }
    simpl. split; [done|]. split; [apply get_option_TempAsciiOn | done].
Qed.

(** C9: with temp_ascii off and a composition in progress, a press of Return
    turns temp_ascii on when the latest text of the commit history is the
    empty string: there is no character for the printable test to fail on. *)
Theorem return_with_empty_latest_text (ctx : Context) (key_event : KeyEvent) :
  get_option ctx "temp_ascii" = false ->
  IsComposing ctx = true ->
  release key_event = false ->
  keycode key_event = XK_Return ->
  latest_text ctx = EmptyString ->
  all_printable (latest_text ctx) = true
  /\ TempAsciiProcess ctx key_event = (kNoop, TempAsciiOn ctx)
  /\ get_option (TempAsciiOn ctx) "temp_ascii" = true
  /\ commit_history (TempAsciiOn ctx) = [].
Proof.
  intros Hoff Hcomposing Hpress Hreturn Hlatest.
  split; [by rewrite Hlatest|].
  split; [|split; [apply get_option_TempAsciiOn | done]].
  unfold TempAsciiProcess.
  rewrite Hpress, Hreturn, Hcomposing, Hoff, Hlatest. reflexivity.
Qed.

(** ** The dispatcher: what comes before the modifier keys *)

Lemma ProcessCapsLock_other_key (st : AsciiComposer) (key_event : KeyEvent) :
  keycode key_event <> XK_Caps_Lock ->
  caps key_event = false ->
  ProcessCapsLock st key_event = (kNoop, st).
Proof.
  intros Hkey Hcaps. unfold ProcessCapsLock.
  apply Z.eqb_neq in Hkey. by rewrite Hkey, Hcaps.
Qed.

(** A key other than Caps_Lock gets past the caps-lock handler when no
    caps-lock switch style is configured or its caps flag is clear. *)
Lemma caps_lock_handler_passes (st : AsciiComposer) (key_event : KeyEvent) :
  keycode key_event <> XK_Caps_Lock ->
  caps_lock_switch_style_ st = kAsciiModeSwitchNoop \/ caps key_event = false ->
  (if negb (is_noop_style (caps_lock_switch_style_ st))
   then ProcessCapsLock st key_event else (kNoop, st)) = (kNoop, st).
Proof.
  intros Hkey [-> | Hcaps]; [done|].
  rewrite ProcessCapsLock_other_key by done.
  by destruct (negb _).
Qed.

Lemma is_noop_style_false (style : AsciiModeSwitchStyle) :
  style <> kAsciiModeSwitchNoop -> is_noop_style style = false.
Proof. by destruct style. Qed.

(** C10: with a caps-lock switch style configured and the conventional caps
    lock, a key event whose caps flag is asserted, whose key is not
    Caps_Lock, and which is no shift+ctrl chord and has neither alt nor
    super asserted, is rejected, and the composer is left as it was: neither
    the tap tracking nor the temporary-ASCII machine is reached. *)
Theorem caps_asserted_key_is_rejected
    (st : AsciiComposer) (now : Z) (key_event : KeyEvent) :
  caps_lock_switch_style_ st <> kAsciiModeSwitchNoop ->
  good_old_caps_lock_ st = true ->
  caps key_event = true ->
  keycode key_event <> XK_Caps_Lock ->
  shift key_event && ctrl key_event = false ->
  alt key_event = false ->
  super key_event = false ->
  ProcessKeyEvent st now key_event = (kRejected, st)
  /\ ProcessCapsLock st key_event = (kRejected, st).
Proof.
  intros Hstyle Hgood Hcaps Hkey Hchord Halt Hsuper.
  assert (Hhandler : ProcessCapsLock st key_event = (kRejected, st)).
  { unfold ProcessCapsLock. apply Z.eqb_neq in Hkey.
    by rewrite Hkey, Hcaps, Hgood. }
  split; [|done].
  unfold ProcessKeyEvent.
  rewrite Hchord, Halt, Hsuper, (is_noop_style_false _ Hstyle), Hhandler.
  reflexivity.
Qed.

(** ** Switching the mode *)

Lemma updating_disconnected (f : Context -> Context) (st : AsciiComposer) :
  connection_ st = false -> updating f st = with_context f st.
Proof. intros Hoff. unfold updating, update_notifier; simpl. by rewrite Hoff. Qed.

Lemma SwitchAsciiMode_unfold (st : AsciiComposer) (ascii_mode : bool)
    (style : AsciiModeSwitchStyle) :
  SwitchAsciiMode st ascii_mode style =
  with_context (set_option "ascii_mode" ascii_mode)
    (if IsComposing (context st) then switch_effect st ascii_mode style
     else st).
Proof.
  unfold SwitchAsciiMode, switch_effect.
  destruct (IsComposing (context st)); [|done].
  destruct style; try done; by rewrite !updating_disconnected.
Qed.

Lemma SwitchAsciiMode_ascii_mode (st : AsciiComposer) ascii_mode style :
  get_option (context (SwitchAsciiMode st ascii_mode style)) "ascii_mode"
  = ascii_mode.
Proof. unfold SwitchAsciiMode; simpl. apply get_option_set_option_eq. Qed.

Lemma SwitchAsciiMode_temp_ascii (st : AsciiComposer) ascii_mode style :
  get_option (context (SwitchAsciiMode st ascii_mode style)) "temp_ascii"
  = get_option (context st) "temp_ascii".
Proof.
  rewrite SwitchAsciiMode_unfold; simpl.
  rewrite get_option_set_option_ne by done.
  destruct (IsComposing (context st)); [|done].
  destruct style, ascii_mode; try done;
    simpl; unfold Commit; simpl; by destruct (commit _ _).
Qed.

(** [SwitchAsciiMode] changes the context and the connection only. *)
Lemma SwitchAsciiMode_fields (st : AsciiComposer) ascii_mode style :
  bindings_ (SwitchAsciiMode st ascii_mode style) = bindings_ st
  /\ caps_lock_switch_style_ (SwitchAsciiMode st ascii_mode style)
     = caps_lock_switch_style_ st
  /\ good_old_caps_lock_ (SwitchAsciiMode st ascii_mode style)
     = good_old_caps_lock_ st
  /\ toggle_with_caps_ (SwitchAsciiMode st ascii_mode style)
     = toggle_with_caps_ st
  /\ shift_key_pressed_ (SwitchAsciiMode st ascii_mode style)
     = shift_key_pressed_ st
  /\ ctrl_key_pressed_ (SwitchAsciiMode st ascii_mode style)
     = ctrl_key_pressed_ st
  /\ toggle_expired_ (SwitchAsciiMode st ascii_mode style)
     = toggle_expired_ st.
Proof.
  rewrite SwitchAsciiMode_unfold.
  destruct (IsComposing (context st)); [|done].
  by destruct style, ascii_mode.
Qed.

(** The calls of a mode switch: those of the style, which set no option,
    then the one that sets ascii_mode. *)
Lemma SwitchAsciiMode_calls (st : AsciiComposer) ascii_mode style :
  calls_from (context st) (context (SwitchAsciiMode st ascii_mode style))
    (switch_calls (IsComposing (context st)) ascii_mode style
       ++ [CSetOption "ascii_mode" ascii_mode]).
Proof.
  rewrite SwitchAsciiMode_unfold. unfold calls_from, switch_calls.
  destruct (IsComposing (context st)); [|done].
  destruct style, ascii_mode; simpl; unfold Commit; simpl;
    try destruct (commit _ _); simpl;
    by rewrite <- ?app_assoc.
Qed.

Lemma switch_calls_set_no_option composing ascii_mode style name :
  count_sets name (switch_calls composing ascii_mode style) = 0%nat.
Proof. by destruct composing, style, ascii_mode. Qed.

(** C2, as the code has it: a mode switch with the inline style while a
    composition is in progress cancels the subscription that was installed,
    for either target value. It installs a new one only when the target
    value of ascii_mode is true; when it is false none is installed. The
    composition is left alone and ascii_mode is set to the target. A
    connected subscription, notified of an update that left the composition
    empty, sets ascii_mode to false and cancels itself; notified while the
    composition is in progress it does nothing. *)
Theorem inline_switch_subscription (st : AsciiComposer) (ascii_mode : bool) :
  IsComposing (context st) = true ->
  let st' := SwitchAsciiMode st ascii_mode kAsciiModeSwitchInline in
  calls_from (context st) (context st')
    (CDisconnect :: (if ascii_mode then [CConnect] else [])
       ++ [CSetOption "ascii_mode" ascii_mode])
  /\ connection_ st' = ascii_mode
  /\ get_option (context st') "ascii_mode" = ascii_mode
  /\ composition (context st') = composition (context st)
  /\ (forall st1 : AsciiComposer,
        connection_ st1 = true ->
        IsComposing (context st1) = false ->
        connection_ (update_notifier st1) = false
        /\ get_option (context (update_notifier st1)) "ascii_mode" = false)
  /\ (forall st1 : AsciiComposer,
        IsComposing (context st1) = true ->
        update_notifier st1 = st1).
Proof.
  intros Hcomposing st'. subst st'.
  split; [|split; [|split; [|split; [|split]]]].
  - unfold calls_from, SwitchAsciiMode. rewrite Hcomposing.
    destruct ascii_mode; simpl; by rewrite <- !app_assoc.
  - unfold SwitchAsciiMode. rewrite Hcomposing. by destruct ascii_mode.
  - apply SwitchAsciiMode_ascii_mode.
  - unfold SwitchAsciiMode. rewrite Hcomposing. by destruct ascii_mode.
  - intros st1 Hconnected Hempty.
    unfold update_notifier, OnContextUpdate. rewrite Hconnected, Hempty; simpl.
    split; [done | apply get_option_set_option_eq].
  - intros st1 Hbusy.
    unfold update_notifier, OnContextUpdate. rewrite Hbusy; simpl.
    by destruct (connection_ st1).
Qed.


(** ** Taps of the modifier keys *)

(** Replaces the comparisons of two constant key codes by their value. *)
Ltac eval_keysyms :=
  repeat match goal with
  | |- context [?a =? ?b] =>
      let v := eval vm_compute in (a =? b) in
      match v with
      | true => change (a =? b) with true
      | false => change (a =? b) with false
      end
  end.

Lemma shift_is_not_caps_lock (key_event : KeyEvent) :
  keycode key_event = XK_Shift_L \/ keycode key_event = XK_Shift_R ->
  keycode key_event <> XK_Caps_Lock.
Proof. by intros [-> | ->]. Qed.

(** The first press of a shift key starts the tracking and sets the deadline;
    the context is not touched. *)
Lemma shift_key_press (st : AsciiComposer) (now : Z) (key_event : KeyEvent) :
  is_chord key_event = false ->
  caps_lock_switch_style_ st = kAsciiModeSwitchNoop \/ caps key_event = false ->
  release key_event = false ->
  keycode key_event = XK_Shift_L \/ keycode key_event = XK_Shift_R ->
  shift_key_pressed_ st = false ->
  ctrl_key_pressed_ st = false ->
  ProcessKeyEvent st now key_event =
  (kNoop,
   set_toggle_expired (now + toggle_duration_limit)
     (set_key_pressed true false st)).
Proof.
  intros Hchord Hcaps Hpress Hkey Hshift Hctrl.
  unfold ProcessKeyEvent. unfold is_chord in Hchord. rewrite Hchord.
  rewrite caps_lock_handler_passes
    by (try apply shift_is_not_caps_lock; done).
  rewrite Hpress, Hshift, Hctrl.
  by destruct Hkey as [-> | ->]; eval_keysyms.
Qed.

(** The release of a shift key while a shift press is tracked: a tap if the
    deadline is not reached, nothing otherwise; the tracking ends. *)
Lemma shift_key_release (st : AsciiComposer) (now : Z) (key_event : KeyEvent) :
  is_chord key_event = false ->
  caps_lock_switch_style_ st = kAsciiModeSwitchNoop \/ caps key_event = false ->
  release key_event = true ->
  keycode key_event = XK_Shift_L \/ keycode key_event = XK_Shift_R ->
  shift_key_pressed_ st = true ->
  ProcessKeyEvent st now key_event =
  (kNoop,
   set_key_pressed false false
     (if now <? toggle_expired_ st then
        if keycode key_event =? XK_Shift_R then
          SwitchAsciiMode (with_context TempAsciiOff st) false
            kAsciiModeSwitchNoop
        else
          snd (ToggleAsciiModeWithKey (with_context TempAsciiOff st)
                 (keycode key_event))
      else st)).
Proof.
  intros Hchord Hcaps Hrelease Hkey Hshift.
  unfold ProcessKeyEvent. unfold is_chord in Hchord. rewrite Hchord.
  rewrite caps_lock_handler_passes
    by (try apply shift_is_not_caps_lock; done).
  rewrite Hrelease, Hshift.
  by destruct Hkey as [-> | ->]; eval_keysyms.
Qed.

Lemma count_sets_app name (l1 l2 : list Call) :
  count_sets name (l1 ++ l2) = (count_sets name l1 + count_sets name l2)%nat.
Proof. unfold count_sets. by rewrite List.filter_app, length_app. Qed.

Lemma calls_from_trans (c1 c2 c3 : Context) (l1 l2 : list Call) :
  calls_from c1 c2 l1 -> calls_from c2 c3 l2 -> calls_from c1 c3 (l1 ++ l2).
Proof.
  unfold calls_from. intros H12 H23. by rewrite H23, H12, app_assoc.
Qed.

Lemma calls_from_TempAsciiOff (ctx : Context) :
  calls_from ctx (TempAsciiOff ctx)
    [CSetOption "temp_ascii" false; CHistoryClear].
Proof. unfold calls_from; simpl. by rewrite <- app_assoc. Qed.

Lemma calls_from_TempAsciiOn (ctx : Context) :
  calls_from ctx (TempAsciiOn ctx)
    [CSetOption "temp_ascii" true; CHistoryClear].
Proof. unfold calls_from; simpl. by rewrite <- app_assoc. Qed.

(** The composition after a mode switch of the no-op style is the one
    before it. *)
Lemma SwitchAsciiMode_noop_composition (st : AsciiComposer) ascii_mode :
  composition (context (SwitchAsciiMode st ascii_mode kAsciiModeSwitchNoop))
  = composition (context st).
Proof.
  rewrite SwitchAsciiMode_unfold; simpl.
  by destruct (IsComposing (context st)).
Qed.

Lemma SwitchAsciiMode_noop_commit_history (st : AsciiComposer) ascii_mode :
  commit_history
    (context (SwitchAsciiMode st ascii_mode kAsciiModeSwitchNoop))
  = commit_history (context st).
Proof.
  rewrite SwitchAsciiMode_unfold; simpl.
  by destruct (IsComposing (context st)).
Qed.

(** C1, as the code has it: a tap of the right shift key, its press found
    with no modifier tracked and its release processed before the deadline
    of 500 ms, both events reaching the tap detection (no chord, and no
    caps-lock switch style configured or the caps flag clear), forces
    ascii_mode to false, the native mode, whatever the bindings are. It does
    so with the no-op style: temp_ascii is turned off and the commit history
    cleared, the subscription is cancelled if a composition is in progress,
    and the composition is not touched. Both events are answered kNoop and
    the tracking ends. *)
Theorem right_shift_tap_forces_native_mode
    (st : AsciiComposer) (now1 now2 : Z) (press rel : KeyEvent) :
  keycode press = XK_Shift_R -> release press = false ->
  keycode rel = XK_Shift_R -> release rel = true ->
  is_chord press = false -> is_chord rel = false ->
  caps_lock_switch_style_ st = kAsciiModeSwitchNoop
    \/ (caps press = false /\ caps rel = false) ->
  shift_key_pressed_ st = false -> ctrl_key_pressed_ st = false ->
  now2 < now1 + 500 ->
  let '(st1, r, st2) := process_two st now1 press now2 rel in
  fst (ProcessKeyEvent st now1 press) = kNoop
  /\ shift_key_pressed_ st1 = true
  /\ toggle_expired_ st1 = now1 + 500
  /\ context st1 = context st
  /\ r = kNoop
  /\ get_option (context st2) "ascii_mode" = false
  /\ get_option (context st2) "temp_ascii" = false
  /\ commit_history (context st2) = []
  /\ composition (context st2) = composition (context st)
  /\ calls_from (context st) (context st2)
       ([CSetOption "temp_ascii" false; CHistoryClear]
          ++ (if IsComposing (context st) then [CDisconnect] else [])
          ++ [CSetOption "ascii_mode" false])
  /\ shift_key_pressed_ st2 = false
  /\ ctrl_key_pressed_ st2 = false.
Proof.
  intros Hkey1 Hpress Hkey2 Hrelease Hchord1 Hchord2 Hcaps Hshift Hctrl Hnow.
  assert (Hcaps1 : caps_lock_switch_style_ st = kAsciiModeSwitchNoop
                   \/ caps press = false) by tauto.
  assert (Hcaps2 : caps_lock_switch_style_ st = kAsciiModeSwitchNoop
                   \/ caps rel = false) by tauto.
  unfold process_two.
  rewrite (shift_key_press st now1 press) by tauto.
  simpl snd.
  rewrite shift_key_release by (simpl; tauto).
  simpl toggle_expired_. unfold toggle_duration_limit.
  apply Z.ltb_lt in Hnow. rewrite Hnow, Hkey2. eval_keysyms. cbv iota.
  cbn [context set_key_pressed shift_key_pressed_ ctrl_key_pressed_].
  repeat split.
  - apply SwitchAsciiMode_ascii_mode.
  - rewrite SwitchAsciiMode_temp_ascii. apply get_option_TempAsciiOff.
  - by rewrite SwitchAsciiMode_noop_commit_history.
  - by rewrite SwitchAsciiMode_noop_composition.
  - eapply calls_from_trans; [apply calls_from_TempAsciiOff|].
    apply (SwitchAsciiMode_calls
             (with_context TempAsciiOff
                (set_toggle_expired (now1 + 500)
                   (set_key_pressed true false st)))
             false kAsciiModeSwitchNoop).
Qed.


Lemma ToggleAsciiModeWithKey_bound (st : AsciiComposer) (key_code : Z) style :
  bindings_ st !! key_code = Some style ->
  ToggleAsciiModeWithKey st key_code =
  (true,
   set_toggle_with_caps (key_code =? XK_Caps_Lock)
     (SwitchAsciiMode st (negb (get_option (context st) "ascii_mode")) style)).
Proof. intros Hbound. unfold ToggleAsciiModeWithKey. by rewrite Hbound. Qed.

Lemma ToggleAsciiModeWithKey_unbound (st : AsciiComposer) (key_code : Z) :
  bindings_ st !! key_code = None ->
  ToggleAsciiModeWithKey st key_code = (false, st).
Proof. intros Hnone. unfold ToggleAsciiModeWithKey. by rewrite Hnone. Qed.

(** C4, as the code has it: a tap of the left shift key, its press found
    with no modifier tracked, both events reaching the tap detection (no
    chord, and no caps-lock switch style configured or the caps flag
    clear). If the bindings have an entry for the key and the release is
    processed before the deadline of 500 ms, ascii_mode is toggled, and it
    is set exactly once. If the release is processed at the deadline or
    later, the context is left as it was. Either way both events are
    answered kNoop and the tracking ends. *)
Theorem left_shift_tap_toggles_once
    (st : AsciiComposer) (now1 now2 : Z) (press rel : KeyEvent) :
  keycode press = XK_Shift_L -> release press = false ->
  keycode rel = XK_Shift_L -> release rel = true ->
  is_chord press = false -> is_chord rel = false ->
  caps_lock_switch_style_ st = kAsciiModeSwitchNoop
    \/ (caps press = false /\ caps rel = false) ->
  shift_key_pressed_ st = false -> ctrl_key_pressed_ st = false ->
  let '(st1, r, st2) := process_two st now1 press now2 rel in
  (is_Some (bindings_ st !! XK_Shift_L) -> now2 < now1 + 500 ->
   get_option (context st2) "ascii_mode"
     = negb (get_option (context st) "ascii_mode")
   /\ exists l, calls_from (context st) (context st2) l
                /\ count_sets "ascii_mode" l = 1%nat)
  /\ (now1 + 500 <= now2 -> context st2 = context st)
  /\ fst (ProcessKeyEvent st now1 press) = kNoop
  /\ r = kNoop
  /\ shift_key_pressed_ st2 = false
  /\ ctrl_key_pressed_ st2 = false.
Proof.
  intros Hkey1 Hpress Hkey2 Hrelease Hchord1 Hchord2 Hcaps Hshift Hctrl.
  assert (Hcaps1 : caps_lock_switch_style_ st = kAsciiModeSwitchNoop
                   \/ caps press = false) by tauto.
  assert (Hcaps2 : caps_lock_switch_style_ st = kAsciiModeSwitchNoop
                   \/ caps rel = false) by tauto.
  unfold process_two.
  rewrite (shift_key_press st now1 press) by tauto.
  simpl snd.
  rewrite shift_key_release by (simpl; tauto).
  simpl toggle_expired_. unfold toggle_duration_limit.
  rewrite Hkey2. eval_keysyms. cbv iota.
  cbn [shift_key_pressed_ ctrl_key_pressed_ set_key_pressed fst].
  split; [|split; [|done]].
  - intros [style Hbound] Hnow. apply Z.ltb_lt in Hnow. rewrite Hnow.
    rewrite (ToggleAsciiModeWithKey_bound _ _ style) by done.
    cbn [snd context set_key_pressed set_toggle_with_caps].
    split.
    + rewrite SwitchAsciiMode_ascii_mode. simpl context.
      by rewrite ascii_mode_TempAsciiOff.
    + eexists. split.
      * eapply calls_from_trans; [apply calls_from_TempAsciiOff|].
        apply (SwitchAsciiMode_calls
                 (with_context TempAsciiOff
                    (set_toggle_expired (now1 + 500)
                       (set_key_pressed true false st)))).
      * rewrite !count_sets_app, switch_calls_set_no_option. reflexivity.
  - intros Hlate. apply Z.ltb_ge in Hlate. by rewrite Hlate.
Qed.

(** ** Caps lock *)

(** A press of Caps_Lock under the conventional caps lock: rejected when
    ascii_mode was not switched on by caps lock, otherwise a switch to the
    negation of the caps flag. *)
Lemma caps_lock_press (st : AsciiComposer) (now : Z) (key_event : KeyEvent) :
  good_old_caps_lock_ st = true ->
  caps_lock_switch_style_ st <> kAsciiModeSwitchNoop ->
  keycode key_event = XK_Caps_Lock ->
  release key_event = false ->
  is_chord key_event = false ->
  ProcessKeyEvent st now key_event =
  if negb (toggle_with_caps_ st) && get_option (context st) "ascii_mode" then
    (kRejected, set_key_pressed false false st)
  else
    (kAccepted,
     SwitchAsciiMode
       (set_toggle_with_caps (negb (caps key_event))
          (set_key_pressed false false st))
       (negb (caps key_event)) (caps_lock_switch_style_ st)).
Proof.
  intros Hgood Hstyle Hkey Hpress Hchord.
  unfold ProcessKeyEvent. unfold is_chord in Hchord.
  rewrite Hchord, (is_noop_style_false _ Hstyle).
  unfold ProcessCapsLock. rewrite Hkey, Hpress. eval_keysyms.
  cbn [negb set_key_pressed good_old_caps_lock_ toggle_with_caps_ context
       caps_lock_switch_style_].
  rewrite Hgood.
  destruct (toggle_with_caps_ st); [done|].
  by destruct (get_option (context st) "ascii_mode").
Qed.

(** The release of Caps_Lock that comes between two presses is swallowed
    and changes nothing. *)
Lemma caps_lock_release_is_swallowed (st : AsciiComposer) (now : Z)
    (key_event : KeyEvent) :
  caps_lock_switch_style_ st <> kAsciiModeSwitchNoop ->
  keycode key_event = XK_Caps_Lock ->
  release key_event = true ->
  is_chord key_event = false ->
  ProcessKeyEvent st now key_event = (kRejected, st).
Proof.
  intros Hstyle Hkey Hrelease Hchord.
  unfold ProcessKeyEvent. unfold is_chord in Hchord.
  rewrite Hchord, (is_noop_style_false _ Hstyle).
  unfold ProcessCapsLock. rewrite Hkey, Hrelease. by eval_keysyms.
Qed.


(** C3, as the code has it: under the conventional caps lock with a
    caps-lock switch style configured, two presses of Caps_Lock in a row,
    neither of them a chord, the caps flag of the second the negation of the
    caps flag of the first, leave ascii_mode at its original value when that
    value is the caps flag of the first press, or when ascii_mode is on and
    was not switched on by caps lock (both presses are then rejected). *)
Theorem caps_lock_twice_restores_ascii_mode
    (st : AsciiComposer) (now1 now2 : Z) (press1 press2 : KeyEvent) :
  good_old_caps_lock_ st = true ->
  caps_lock_switch_style_ st <> kAsciiModeSwitchNoop ->
  keycode press1 = XK_Caps_Lock -> release press1 = false ->
  keycode press2 = XK_Caps_Lock -> release press2 = false ->
  is_chord press1 = false -> is_chord press2 = false ->
  caps press2 = negb (caps press1) ->
  get_option (context st) "ascii_mode" = caps press1
    \/ (toggle_with_caps_ st = false
        /\ get_option (context st) "ascii_mode" = true) ->
  let '(st1, r, st2) := process_two st now1 press1 now2 press2 in
  get_option (context st2) "ascii_mode" = get_option (context st) "ascii_mode".
Proof.
  intros Hgood Hstyle Hkey1 Hpress1 Hkey2 Hpress2 Hchord1 Hchord2 Hflip Hsync.
  unfold process_two.
  rewrite (caps_lock_press st now1 press1) by done.
  destruct (negb (toggle_with_caps_ st) && get_option (context st) "ascii_mode")
    eqn:Hclaimed.
  - (* the first press is rejected, and so is the second *)
    simpl snd. rewrite caps_lock_press by done.
    cbn [toggle_with_caps_ context set_key_pressed]. by rewrite Hclaimed.
  - (* the first press switches to the negation of its caps flag *)
    assert (Hmode : get_option (context st) "ascii_mode" = caps press1).
    { destruct Hsync as [|[Hcaps Hascii]]; [done|].
      by rewrite Hcaps, Hascii in Hclaimed. }
    simpl snd.
    set (st0 := set_toggle_with_caps (negb (caps press1))
                  (set_key_pressed false false st)).
    destruct (SwitchAsciiMode_fields st0 (negb (caps press1))
                (caps_lock_switch_style_ st))
      as (_ & Hstyle' & Hgood' & Htoggle' & _).
    pose proof (SwitchAsciiMode_ascii_mode st0 (negb (caps press1))
                  (caps_lock_switch_style_ st)) as Hmode'.
    set (st1 := SwitchAsciiMode st0 (negb (caps press1))
                  (caps_lock_switch_style_ st)) in *.
    clearbody st1. simpl in Hstyle', Hgood', Htoggle'.
    rewrite caps_lock_press; [| by rewrite Hgood' | by rewrite Hstyle' | done..].
    rewrite Htoggle', Hmode', Hflip, Hmode.
    destruct (caps press1); cbn [negb andb]; cbv beta iota;
      by rewrite SwitchAsciiMode_ascii_mode.
Qed.


(** ** Every change of temp_ascii clears the commit history *)

Lemma temp_ascii_cleared_app (l1 l2 : list Call) :
  temp_ascii_cleared l1 = true ->
  temp_ascii_cleared l2 = true ->
  temp_ascii_cleared (l1 ++ l2) = true.
Proof.
  intros H1 H2. induction l1 as [|c l1 IH]; [done|].
  simpl in *. destruct (sets_option "temp_ascii" c); [|by apply IH].
  destruct l1 as [|[] l1]; try done. by apply IH.
Qed.

Lemma clears_refl (ctx : Context) : clears_with_temp_ascii ctx ctx.
Proof. exists []. split; [|done]. unfold calls_from. by rewrite app_nil_r. Qed.

Lemma clears_trans (c1 c2 c3 : Context) :
  clears_with_temp_ascii c1 c2 ->
  clears_with_temp_ascii c2 c3 ->
  clears_with_temp_ascii c1 c3.
Proof.
  intros (l1 & H1 & Hl1) (l2 & H2 & Hl2). exists (l1 ++ l2). split.
  - by eapply calls_from_trans.
  - by apply temp_ascii_cleared_app.
Qed.

(** One more call that does not set temp_ascii. *)
Lemma clears_call (c1 c2 c3 : Context) (c : Call) :
  sets_option "temp_ascii" c = false ->
  calls_from c2 c3 [c] ->
  clears_with_temp_ascii c1 c2 ->
  clears_with_temp_ascii c1 c3.
Proof.
  intros Hc Hcall H12. apply (clears_trans _ c2); [done|].
  exists [c]. split; [done|]. simpl. by rewrite Hc.
Qed.

(** Splits off the last call, made on the context of [st], when it does not
    set temp_ascii. *)
Ltac one_more_call st :=
  eapply (clears_call _ (context st));
  [ | unfold calls_from; reflexivity | ]; [reflexivity | try done].

Lemma clears_TempAsciiOff (c : Context) (ctx : Context) :
  clears_with_temp_ascii c ctx -> clears_with_temp_ascii c (TempAsciiOff ctx).
Proof.
  intros Hc. apply (clears_trans _ ctx); [done|].
  eexists. split; [apply calls_from_TempAsciiOff | done].
Qed.

Lemma clears_TempAsciiOn (c : Context) (ctx : Context) :
  clears_with_temp_ascii c ctx -> clears_with_temp_ascii c (TempAsciiOn ctx).
Proof.
  intros Hc. apply (clears_trans _ ctx); [done|].
  eexists. split; [apply calls_from_TempAsciiOn | done].
Qed.

Lemma clears_TempAsciiProcess (c ctx : Context) (key_event : KeyEvent) :
  clears_with_temp_ascii c ctx ->
  clears_with_temp_ascii c (snd (TempAsciiProcess ctx key_event)).
Proof.
  intros Hc. unfold TempAsciiProcess.
  repeat case_match; cbn [snd];
    auto using clears_TempAsciiOff, clears_TempAsciiOn.
Qed.

Lemma clears_SwitchAsciiMode (c : Context) (st : AsciiComposer)
    ascii_mode style :
  clears_with_temp_ascii c (context st) ->
  clears_with_temp_ascii c (context (SwitchAsciiMode st ascii_mode style)).
Proof.
  intros Hc. apply (clears_trans _ (context st)); [done|].
  eexists. split; [apply SwitchAsciiMode_calls|].
  by destruct (IsComposing (context st)), style, ascii_mode.
Qed.

Lemma clears_ToggleAsciiModeWithKey (c : Context) (st : AsciiComposer)
    (key_code : Z) :
  clears_with_temp_ascii c (context st) ->
  clears_with_temp_ascii c (context (snd (ToggleAsciiModeWithKey st key_code))).
Proof.
  intros Hc. unfold ToggleAsciiModeWithKey.
  destruct (bindings_ st !! key_code); [|done].
  cbn [snd context set_toggle_with_caps]. by apply clears_SwitchAsciiMode.
Qed.

Lemma clears_update_notifier (c : Context) (st : AsciiComposer) :
  clears_with_temp_ascii c (context st) ->
  clears_with_temp_ascii c (context (update_notifier st)).
Proof.
  intros Hc. unfold update_notifier, OnContextUpdate.
  destruct (connection_ st); [|done].
  destruct (negb (IsComposing (context st))); [|done].
  one_more_call (disconnect st). by one_more_call st.
Qed.

Lemma clears_ProcessCapsLock (c : Context) (st : AsciiComposer)
    (key_event : KeyEvent) :
  clears_with_temp_ascii c (context st) ->
  clears_with_temp_ascii c (context (snd (ProcessCapsLock st key_event))).
Proof.
  intros Hc. unfold ProcessCapsLock.
  repeat case_match; cbn [snd]; try done.
  all: try (by apply clears_SwitchAsciiMode).
  all: by one_more_call st.
Qed.

Lemma clears_ProcessKeyEvent (st : AsciiComposer) (now : Z)
    (key_event : KeyEvent) :
  clears_with_temp_ascii (context st)
    (context (snd (ProcessKeyEvent st now key_event))).
Proof.
  unfold ProcessKeyEvent.
  destruct (_ || _ || _).
  { cbn [snd]. apply clears_TempAsciiOff, clears_refl. }
  assert (Hcaps : clears_with_temp_ascii (context st)
            (context (snd (if negb (is_noop_style (caps_lock_switch_style_ st))
                           then ProcessCapsLock st key_event
                           else (kNoop, st))))).
  { destruct (negb _); [apply clears_ProcessCapsLock|]; apply clears_refl. }
  destruct (if negb _ then _ else _) as [result st'].
  cbn [snd] in Hcaps.
  destruct result; try done.
  repeat case_match; cbn [snd context set_key_pressed set_toggle_expired
                           with_context]; try done.
  all: try (by apply clears_ToggleAsciiModeWithKey).
  all: try (by apply clears_SwitchAsciiMode, clears_TempAsciiOff).
  all: try (by apply clears_ToggleAsciiModeWithKey, clears_TempAsciiOff).
  all: try (by apply clears_TempAsciiOff).
  all: try (by apply clears_update_notifier; one_more_call st').
  all: try (match goal with
            | Heq : TempAsciiProcess ?ctx ?ke = (_, ?c') |- _ =>
                change c' with (snd (@pair ProcessResult Context kNoop c'));
                replace c' with (snd (TempAsciiProcess ctx ke))
                  by (by rewrite Heq)
            end; by apply clears_TempAsciiProcess).
Qed.

(** C7: every change of temp_ascii the component makes clears the commit
    history. Turning it on leaves the option true and the history empty,
    turning it off leaves the option false and the history empty, and so
    the history is empty after entering and after leaving. While a key
    event is processed, and while an update notification is handled, each
    call that sets temp_ascii is followed at once by the call that clears
    the history; and when the temporary-ASCII machine changes the value of
    temp_ascii, it leaves the history empty. *)
Theorem temp_ascii_change_clears_commit_history :
  (forall ctx : Context,
      get_option (TempAsciiOn ctx) "temp_ascii" = true
      /\ commit_history (TempAsciiOn ctx) = []
      /\ calls_from ctx (TempAsciiOn ctx)
           [CSetOption "temp_ascii" true; CHistoryClear])
  /\ (forall ctx : Context,
      get_option (TempAsciiOff ctx) "temp_ascii" = false
      /\ commit_history (TempAsciiOff ctx) = []
      /\ calls_from ctx (TempAsciiOff ctx)
           [CSetOption "temp_ascii" false; CHistoryClear])
  /\ (forall ctx : Context,
      commit_history (TempAsciiOn ctx) = []
      /\ commit_history (TempAsciiOff (TempAsciiOn ctx)) = [])
  /\ (forall (st : AsciiComposer) (now : Z) (key_event : KeyEvent),
      clears_with_temp_ascii (context st)
        (context (snd (ProcessKeyEvent st now key_event))))
  /\ (forall st : AsciiComposer,
      clears_with_temp_ascii (context st) (context (update_notifier st)))
  /\ (forall (ctx : Context) (key_event : KeyEvent),
      get_option (snd (TempAsciiProcess ctx key_event)) "temp_ascii"
        <> get_option ctx "temp_ascii" ->
      commit_history (snd (TempAsciiProcess ctx key_event)) = []).
Proof.
  split; [|split; [|split; [|split; [|split]]]].
  - intros ctx. split; [apply get_option_TempAsciiOn|].
    split; [done | apply calls_from_TempAsciiOn].
  - intros ctx. split; [apply get_option_TempAsciiOff|].
    split; [done | apply calls_from_TempAsciiOff].
  - done.
  - apply clears_ProcessKeyEvent.
  - intros st. apply clears_update_notifier, clears_refl.
  - intros ctx key_event. unfold TempAsciiProcess.
    repeat case_match; cbn [snd]; done.
Qed.


(** ** The binding table *)


Lemma load_binding_accepted (dest : gmap Z AsciiModeSwitchStyle) it k s :
  accepted_as it k s -> load_binding dest it = <[k := s]> dest.
Proof.
  intros (value & ke & Hvalue & Hstyle & Hnoop & Hparse & Hmod & Hkey).
  unfold load_binding. rewrite Hvalue, Hstyle, Hparse, Hmod, Hkey.
  by destruct s.
Qed.

Lemma load_binding_dropped (dest : gmap Z AsciiModeSwitchStyle) it :
  dropped it -> load_binding dest it = dest.
Proof.
  unfold load_binding.
  intros [Hparse | [(ke & Hparse & Hmod) | [Hvalue | (value & Hvalue & Hstyle)]]].
  - rewrite Hparse. by repeat case_match.
  - rewrite Hparse. apply Z.eqb_neq in Hmod. rewrite Hmod.
    by repeat case_match.
  - by rewrite Hvalue.
  - by rewrite Hvalue, Hstyle.
Qed.

Lemma accepted_or_dropped (it : string * ConfigItem) :
  dropped it \/ exists k s, accepted_as it k s.
Proof.
  unfold dropped, accepted_as.
  destruct (As_ConfigValue (snd it)) as [value|] eqn:Hvalue; [|tauto].
  destruct (Parse (fst it)) as [ke|] eqn:Hparse; [|tauto].
  destruct (decide (modifier ke = 0)) as [Hmod|Hmod]; [|left; right; left; eauto].
  destruct (decide (find_style ascii_mode_switch_styles value
                    = kAsciiModeSwitchNoop)) as [Hstyle|Hstyle].
  - left. do 3 right. eauto.
  - right. do 2 eexists. exists value, ke. eauto 10.
Qed.


(** Where a binding found after the loop comes from: an accepted entry, or
    the table the loop started from. *)
Lemma load_bindings_lookup (entries : ConfigMap)
    (dest : gmap Z AsciiModeSwitchStyle) (k : Z) (s : AsciiModeSwitchStyle) :
  fold_left load_binding entries dest !! k = Some s ->
  (exists it, it ∈ entries /\ accepted_as it k s) \/ dest !! k = Some s.
Proof.
  revert dest. induction entries as [|it entries IH]; intros dest; simpl.
  { by right. }
  intros Hlookup. destruct (IH _ Hlookup) as [(it' & Hin & Hacc) | Hdest].
  { left. exists it'. split; [set_solver | done]. }
  destruct (accepted_or_dropped it) as [Hdrop | (k' & s' & Hacc)].
  - right. by rewrite load_binding_dropped in Hdest.
  - rewrite (load_binding_accepted _ _ _ _ Hacc) in Hdest.
    destruct (decide (k' = k)) as [->|Hne].
    + rewrite lookup_insert_eq in Hdest. injection Hdest as ->.
      left. exists it. split; [set_solver | done].
    + right. by rewrite lookup_insert_ne in Hdest.
Qed.




(** ** What a key event may change *)

Lemma rebuilt_self (st : AsciiComposer) :
  rebuilt st (context st) (toggle_with_caps_ st) (connection_ st) = st.
Proof. by destruct st. Qed.

Lemma SwitchAsciiMode_rebuilt (st : AsciiComposer) ascii_mode style :
  exists ctx conn,
    SwitchAsciiMode st ascii_mode style
    = rebuilt st ctx (toggle_with_caps_ st) conn.
Proof.
  rewrite SwitchAsciiMode_unfold.
  destruct (IsComposing (context st)).
  - destruct style, ascii_mode; by eexists _, _.
  - eexists _, _. unfold rebuilt, with_context. reflexivity.
Qed.

Lemma update_notifier_rebuilt (st : AsciiComposer) :
  exists ctx conn,
    update_notifier st = rebuilt st ctx (toggle_with_caps_ st) conn.
Proof.
  unfold update_notifier, OnContextUpdate.
  destruct (connection_ st) eqn:Hconn;
    [destruct (negb (IsComposing (context st)))|].
  - by eexists _, _.
  - exists (context st), true. by destruct st; simplify_eq/=.
  - exists (context st), false. by destruct st; simplify_eq/=.
Qed.

Lemma updating_rebuilt (f : Context -> Context) (st : AsciiComposer) :
  exists ctx conn,
    updating f st = rebuilt st ctx (toggle_with_caps_ st) conn.
Proof.
  unfold updating.
  destruct (update_notifier_rebuilt (with_context f st)) as (ctx & conn & ->).
  by eexists _, _.
Qed.

Lemma ToggleAsciiModeWithKey_rebuilt (st : AsciiComposer) (key_code : Z) :
  exists ctx twc conn,
    snd (ToggleAsciiModeWithKey st key_code) = rebuilt st ctx twc conn.
Proof.
  unfold ToggleAsciiModeWithKey.
  destruct (bindings_ st !! key_code) as [style|]; cbn [snd].
  - destruct (SwitchAsciiMode_rebuilt st
                (negb (get_option (context st) "ascii_mode")) style)
      as (ctx & conn & ->).
    by eexists _, _, _.
  - eexists _, _, _. symmetry. apply rebuilt_self.
Qed.

(** The caps-lock handler lets a key event through only with the composer
    untouched. *)
Lemma ProcessCapsLock_noop (st st' : AsciiComposer) (key_event : KeyEvent) :
  ProcessCapsLock st key_event = (kNoop, st') -> st' = st.
Proof.
  unfold ProcessCapsLock. intros Hrun.
  repeat case_match; by simplify_eq.
Qed.

(** Otherwise it keeps the tracking flags or clears both. *)
Lemma ProcessCapsLock_rebuilt (st : AsciiComposer) (key_event : KeyEvent) :
  exists ctx twc conn s c,
    snd (ProcessCapsLock st key_event)
    = set_key_pressed s c (rebuilt st ctx twc conn)
    /\ ((s = shift_key_pressed_ st /\ c = ctrl_key_pressed_ st)
        \/ (s = false /\ c = false)).
Proof.
  unfold ProcessCapsLock.
  repeat case_match; cbn [snd];
    try match goal with
    | |- context [SwitchAsciiMode ?st0 ?a ?style] =>
        destruct (SwitchAsciiMode_rebuilt st0 a style) as (ctx & conn & ->)
    end;
    destruct st; eexists _, _, _, _, _;
    (split; [unfold with_context, set_key_pressed, set_toggle_with_caps,
               rebuilt; cbn; reflexivity|]);
    cbn; tauto.
Qed.


(** What processing a key event can change in the composer: the context,
    [toggle_with_caps_], the connection, the tracking flags and the
    deadline, the last two only as the tap detection allows. *)
Lemma ProcessKeyEvent_rebuilt (st : AsciiComposer) (now : Z)
    (key_event : KeyEvent) :
  exists ctx twc conn s c t,
    snd (ProcessKeyEvent st now key_event)
    = set_toggle_expired t (set_key_pressed s c (rebuilt st ctx twc conn))
    /\ tracking_step (shift_key_pressed_ st) (ctrl_key_pressed_ st) s c
    /\ (t = toggle_expired_ st \/ t = now + toggle_duration_limit).
Proof.
  unfold ProcessKeyEvent, tracking_step.
  destruct (_ || _ || _).
  { destruct st. eexists _, _, _, _, _, _. split; [|split].
    - unfold with_context, set_key_pressed, set_toggle_expired, rebuilt; cbn.
      reflexivity.
    - tauto.
    - by left. }
  destruct (if negb _ then _ else _) as [result st'] eqn:Hcaps.
  assert (Hst' : result = kNoop /\ st' = st
                 \/ result <> kNoop
                    /\ st' = snd (ProcessCapsLock st key_event)).
  { destruct (negb _).
    - destruct result; [right | right | left]; rewrite ?Hcaps; try done.
      split; [done | by apply (ProcessCapsLock_noop _ _ key_event)].
    - left. by simplify_eq. }
  destruct Hst' as [[-> ->] | [Hresult ->]].
  2: { destruct (ProcessCapsLock_rebuilt st key_event)
         as (ctx & twc & conn & s & c & -> & Hsc).
       destruct result; [| |done]; cbn [snd];
         destruct st; eexists _, _, _, _, _, _;
         (split; [unfold set_key_pressed, set_toggle_expired, rebuilt; cbn;
                  reflexivity|]); cbn in *; tauto. }
  clear Hcaps.
  repeat case_match; cbn [snd];
    repeat match goal with
    | |- context [SwitchAsciiMode ?st0 ?a ?style] =>
        destruct (SwitchAsciiMode_rebuilt st0 a style) as (? & ? & ->)
    | |- context [ToggleAsciiModeWithKey ?st0 ?k] =>
        destruct (ToggleAsciiModeWithKey_rebuilt st0 k) as (? & ? & ? & ->)
    | |- context [updating ?f ?st0] =>
        destruct (updating_rebuilt f st0) as (? & ? & ->)
    end;
    destruct st; eexists _, _, _, _, _, _;
    (split; [unfold with_context, set_key_pressed, set_toggle_expired,
               rebuilt; cbn; reflexivity|]);
    cbn in *;
    repeat match goal with
    | b : bool |- _ => destruct b
    end; cbn in *; try discriminate; tauto.
Qed.


(** ** Invariants of a run *)

(** X1: processing key events never changes the settings loaded from the
    configuration: the bindings, the caps-lock switch style and the
    conventional-caps-lock flag after any run are those before it. *)
Theorem run_keeps_configuration (st : AsciiComposer)
    (events : list (Z * KeyEvent)) :
  same_configuration st (process_all st events).
Proof.
  revert st. induction events as [|[now key_event] events IH]; intros st.
  { by unfold same_configuration. }
  cbn [process_all].
  destruct (IH (snd (ProcessKeyEvent st now key_event))) as (Hb & Hs & Hg).
  destruct (ProcessKeyEvent_rebuilt st now key_event)
    as (ctx & twc & conn & s & c & t & Hshape & _).
  rewrite Hshape in *. by unfold same_configuration.
Qed.

(** X2: the tap detection never tracks both modifier keys: if at most one
    of shift and ctrl is tracked before a run, at most one is after it. *)
Theorem run_tracks_at_most_one (st : AsciiComposer)
    (events : list (Z * KeyEvent)) :
  tracks_at_most_one st ->
  tracks_at_most_one (process_all st events).
Proof.
  revert st. induction events as [|[now key_event] events IH]; intros st Hst.
  { done. }
  cbn [process_all]. apply IH.
  destruct (ProcessKeyEvent_rebuilt st now key_event)
    as (ctx & twc & conn & s & c & t & -> & Hstep & _).
  unfold tracks_at_most_one, tracking_step in *. cbn.
  destruct Hstep as [[-> ->] | [[-> ->] | (_ & _ & Hone)]]; [done..|].
  by destruct s, c.
Qed.

(** ** The calls of a run *)

Lemma blocks_refl (ctx : Context) : calls_in_blocks ctx ctx.
Proof.
  exists []. split; [constructor|]. unfold calls_from; simpl.
  by rewrite app_nil_r.
Qed.

Lemma blocks_trans (c1 c2 c3 : Context) :
  calls_in_blocks c1 c2 -> calls_in_blocks c2 c3 -> calls_in_blocks c1 c3.
Proof.
  intros (b1 & Hb1 & H1) (b2 & Hb2 & H2). exists (b1 ++ b2). split.
  - by apply Forall_app.
  - rewrite concat_app. by eapply calls_from_trans.
Qed.

Lemma blocks_one (c1 c2 c3 : Context) (l : list Call) :
  call_block l -> calls_from c2 c3 l ->
  calls_in_blocks c1 c2 -> calls_in_blocks c1 c3.
Proof.
  intros Hl Hcalls H12. apply (blocks_trans _ c2); [done|].
  exists [l]. split; [by repeat constructor|]. simpl. by rewrite app_nil_r.
Qed.

Lemma blocks_TempAsciiOff (c ctx : Context) :
  calls_in_blocks c ctx -> calls_in_blocks c (TempAsciiOff ctx).
Proof.
  apply blocks_one with (l := [CSetOption "temp_ascii" false; CHistoryClear]);
    [constructor | apply calls_from_TempAsciiOff].
Qed.

Lemma blocks_TempAsciiOn (c ctx : Context) :
  calls_in_blocks c ctx -> calls_in_blocks c (TempAsciiOn ctx).
Proof.
  apply blocks_one with (l := [CSetOption "temp_ascii" true; CHistoryClear]);
    [constructor | apply calls_from_TempAsciiOn].
Qed.

Lemma blocks_TempAsciiProcess (c ctx : Context) (key_event : KeyEvent) :
  calls_in_blocks c ctx ->
  calls_in_blocks c (snd (TempAsciiProcess ctx key_event)).
Proof.
  intros Hc. unfold TempAsciiProcess.
  repeat case_match; cbn [snd];
    auto using blocks_TempAsciiOff, blocks_TempAsciiOn.
Qed.

Lemma blocks_SwitchAsciiMode (c : Context) (st : AsciiComposer)
    ascii_mode style :
  calls_in_blocks c (context st) ->
  calls_in_blocks c (context (SwitchAsciiMode st ascii_mode style)).
Proof.
  eapply blocks_one; [apply block_switch | apply SwitchAsciiMode_calls].
Qed.

Lemma blocks_ToggleAsciiModeWithKey (c : Context) (st : AsciiComposer)
    (key_code : Z) :
  calls_in_blocks c (context st) ->
  calls_in_blocks c (context (snd (ToggleAsciiModeWithKey st key_code))).
Proof.
  intros Hc. unfold ToggleAsciiModeWithKey.
  destruct (bindings_ st !! key_code); [|done].
  cbn [snd context set_toggle_with_caps]. by apply blocks_SwitchAsciiMode.
Qed.

Lemma blocks_update_notifier (c : Context) (st : AsciiComposer) :
  calls_in_blocks c (context st) ->
  calls_in_blocks c (context (update_notifier st)).
Proof.
  intros Hc. unfold update_notifier, OnContextUpdate.
  destruct (connection_ st); [|done].
  destruct (negb (IsComposing (context st))); [|done].
  eapply blocks_one; [apply block_update | | exact Hc].
  unfold calls_from; simpl. by rewrite <- app_assoc.
Qed.

Lemma blocks_ProcessCapsLock (c : Context) (st : AsciiComposer)
    (key_event : KeyEvent) :
  calls_in_blocks c (context st) ->
  calls_in_blocks c (context (snd (ProcessCapsLock st key_event))).
Proof.
  intros Hc. unfold ProcessCapsLock.
  repeat case_match; cbn [snd]; try done.
  all: try (by apply blocks_SwitchAsciiMode).
  all: by eapply blocks_one; [apply block_commit_text | | exact Hc].
Qed.

Lemma blocks_ProcessKeyEvent (st : AsciiComposer) (now : Z)
    (key_event : KeyEvent) :
  calls_in_blocks (context st)
    (context (snd (ProcessKeyEvent st now key_event))).
Proof.
  unfold ProcessKeyEvent.
  destruct (_ || _ || _).
  { cbn [snd]. apply blocks_TempAsciiOff, blocks_refl. }
  assert (Hcaps : calls_in_blocks (context st)
            (context (snd (if negb (is_noop_style (caps_lock_switch_style_ st))
                           then ProcessCapsLock st key_event
                           else (kNoop, st))))).
  { destruct (negb _); [apply blocks_ProcessCapsLock|]; apply blocks_refl. }
  destruct (if negb _ then _ else _) as [result st'].
  cbn [snd] in Hcaps.
  destruct result; try done.
  repeat case_match; cbn [snd context set_key_pressed set_toggle_expired
                           with_context]; try done.
  all: try (by apply blocks_ToggleAsciiModeWithKey).
  all: try (by apply blocks_SwitchAsciiMode, blocks_TempAsciiOff).
  all: try (by apply blocks_ToggleAsciiModeWithKey, blocks_TempAsciiOff).
  all: try (by apply blocks_TempAsciiOff).
  all: try (by apply blocks_update_notifier;
              eapply blocks_one; [apply block_push_input | | exact Hcaps]).
  all: try (match goal with
            | Heq : TempAsciiProcess ?ctx ?ke = (_, ?c') |- _ =>
                replace c' with (snd (TempAsciiProcess ctx ke))
                  by (by rewrite Heq)
            end; by apply blocks_TempAsciiProcess).
Qed.


(** A property of call sequences that holds of the empty sequence, of two
    sequences put end to end and of every group of calls holds of the calls
    made between two contexts that are groups apart. *)
Lemma blocks_property (P : list Call -> Prop) (before after : Context) :
  P [] ->
  (forall l1 l2, P l1 -> P l2 -> P (l1 ++ l2)) ->
  (forall l, call_block l -> P l) ->
  calls_in_blocks before after ->
  exists l, calls_from before after l /\ P l.
Proof.
  intros Hnil Happ Hblock (blocks & Hblocks & Hcalls).
  exists (concat blocks). split; [done|].
  clear Hcalls. induction Hblocks as [|l blocks Hl _ IH]; simpl; auto.
Qed.

Lemma blocks_process_all (st : AsciiComposer) (events : list (Z * KeyEvent)) :
  calls_in_blocks (context st) (context (process_all st events)).
Proof.
  revert st. induction events as [|[now key_event] events IH]; intros st.
  { apply blocks_refl. }
  cbn [process_all].
  eapply blocks_trans; [apply blocks_ProcessKeyEvent | apply IH].
Qed.

(** X3: the calls the component makes on its collaborators, during a run
    of key events and when the update notifier calls it back, are a
    sequence of five kinds of groups: setting temp_ascii and clearing the commit history;
    the calls of one mode switch, ending with the setting of ascii_mode; the
    disconnection and the setting of ascii_mode to false by the update slot;
    one direct commit of a text; one key pushed to the input. *)
Theorem run_calls_in_blocks (st : AsciiComposer)
    (events : list (Z * KeyEvent)) :
  calls_in_blocks (context st) (context (process_all st events))
  /\ calls_in_blocks (context st) (context (update_notifier st)).
Proof.
  split; [apply blocks_process_all|].
  apply blocks_update_notifier, blocks_refl.
Qed.

Lemma connects_after_disconnect_weaken (b : bool) (l : list Call) :
  connects_after_disconnect false l = true ->
  connects_after_disconnect b l = true.
Proof. by destruct l as [|[] l], b. Qed.

Lemma connects_after_disconnect_app (b : bool) (l1 l2 : list Call) :
  connects_after_disconnect b l1 = true ->
  connects_after_disconnect false l2 = true ->
  connects_after_disconnect b (l1 ++ l2) = true.
Proof.
  revert b. induction l1 as [|c l1 IH]; intros b H1 H2.
  { by apply connects_after_disconnect_weaken. }
  destruct c; simpl in *; auto.
  apply andb_true_iff in H1 as [-> H1]. simpl. auto.
Qed.

(** X4: in the calls of a run, a slot is connected to the update notifier
    only right after the previous one was disconnected: the component never
    holds two subscriptions. *)
Theorem run_connects_after_disconnect (st : AsciiComposer)
    (events : list (Z * KeyEvent)) :
  exists l,
    calls_from (context st) (context (process_all st events)) l
    /\ connects_after_disconnect false l = true.
Proof.
  apply blocks_property; [done | | | apply blocks_process_all].
  - intros l1 l2. apply connects_after_disconnect_app.
  - intros l Hl. destruct Hl as [v | composing a style | | text | ch];
      try done.
    by destruct composing, a, style.
Qed.

(** X5: a run sets no option other than ascii_mode and temp_ascii. *)
Theorem run_sets_two_options_only (st : AsciiComposer)
    (events : list (Z * KeyEvent)) (name : string) :
  name <> "ascii_mode" -> name <> "temp_ascii" ->
  exists l,
    calls_from (context st) (context (process_all st events)) l
    /\ count_sets name l = 0%nat.
Proof.
  intros Hascii Htemp.
  apply blocks_property; [done | | | apply blocks_process_all].
  - intros l1 l2 H1 H2. by rewrite count_sets_app, H1, H2.
  - apply String.eqb_neq in Hascii, Htemp.
    rewrite String.eqb_sym in Hascii. rewrite String.eqb_sym in Htemp.
    intros l Hl. destruct Hl as [v | composing a style | | text | ch];
      rewrite ?count_sets_app, ?switch_calls_set_no_option;
      unfold count_sets; cbn [List.filter sets_option];
      by rewrite ?Hascii, ?Htemp.
Qed.


(** ** The dispatcher, key by key *)

Lemma caps_lock_handler_skipped (st : AsciiComposer) (key_event : KeyEvent) :
  passes_caps_lock st key_event ->
  (if negb (is_noop_style (caps_lock_switch_style_ st))
   then ProcessCapsLock st key_event else (kNoop, st)) = (kNoop, st).
Proof.
  intros [-> | [Hkey Hcaps]]; [done|].
  apply caps_lock_handler_passes; auto.
Qed.

(** Splits a key known to be a shift or ctrl key into its four cases. *)
Ltac modifier_cases Hmod Hkey :=
  unfold is_shift_key, is_ctrl_key in Hmod;
  repeat match type of Hmod with
  | context [?ch =? ?k] =>
      destruct (Z.eqb_spec ch k) as [Hkey|_]; [clear Hmod|]
  end; [..|discriminate Hmod].

Lemma modifier_passes_caps_lock (st : AsciiComposer) (key_event : KeyEvent) :
  is_shift_key (keycode key_event) || is_ctrl_key (keycode key_event) = true ->
  caps_lock_switch_style_ st = kAsciiModeSwitchNoop \/ caps key_event = false ->
  passes_caps_lock st key_event.
Proof.
  intros Hmod [Hstyle | Hcaps]; [by left|]. right. split; [|done].
  modifier_cases Hmod Hkey; by rewrite Hkey.
Qed.

(** The release of a shift or ctrl key that reaches the tap detection. *)
Lemma modifier_key_release (st : AsciiComposer) (now : Z)
    (key_event : KeyEvent) :
  is_chord key_event = false ->
  caps_lock_switch_style_ st = kAsciiModeSwitchNoop \/ caps key_event = false ->
  is_shift_key (keycode key_event) || is_ctrl_key (keycode key_event) = true ->
  release key_event = true ->
  ProcessKeyEvent st now key_event =
  (kNoop,
   if shift_key_pressed_ st || ctrl_key_pressed_ st then
     set_key_pressed false false
       (if ((is_shift_key (keycode key_event) && shift_key_pressed_ st)
            || (is_ctrl_key (keycode key_event) && ctrl_key_pressed_ st))
           && (now <? toggle_expired_ st) then
          if keycode key_event =? XK_Shift_R then
            SwitchAsciiMode (with_context TempAsciiOff st) false
              kAsciiModeSwitchNoop
          else
            snd (ToggleAsciiModeWithKey (with_context TempAsciiOff st)
                   (keycode key_event))
        else st)
   else st).
Proof.
  intros Hchord Hcaps Hmod Hrelease.
  unfold ProcessKeyEvent. unfold is_chord in Hchord. rewrite Hchord.
  rewrite caps_lock_handler_skipped by by apply modifier_passes_caps_lock.
  rewrite Hrelease. unfold is_shift_key, is_ctrl_key.
  modifier_cases Hmod Hkey; rewrite Hkey; eval_keysyms; cbn [orb andb];
    by destruct (shift_key_pressed_ st || ctrl_key_pressed_ st).
Qed.

(** The press of a shift or ctrl key that reaches the tap detection. *)
Lemma modifier_key_press (st : AsciiComposer) (now : Z)
    (key_event : KeyEvent) :
  is_chord key_event = false ->
  caps_lock_switch_style_ st = kAsciiModeSwitchNoop \/ caps key_event = false ->
  is_shift_key (keycode key_event) || is_ctrl_key (keycode key_event) = true ->
  release key_event = false ->
  ProcessKeyEvent st now key_event =
  (kNoop,
   if shift_key_pressed_ st || ctrl_key_pressed_ st then st
   else
     set_toggle_expired (now + toggle_duration_limit)
       (if is_shift_key (keycode key_event) then set_key_pressed true false st
        else set_key_pressed false true (with_context TempAsciiOff st))).
Proof.
  intros Hchord Hcaps Hmod Hpress.
  unfold ProcessKeyEvent. unfold is_chord in Hchord. rewrite Hchord.
  rewrite caps_lock_handler_skipped by by apply modifier_passes_caps_lock.
  rewrite Hpress. unfold is_shift_key, is_ctrl_key.
  modifier_cases Hmod Hkey; rewrite Hkey; eval_keysyms; cbn [orb andb negb];
    destruct (shift_key_pressed_ st) eqn:Hs, (ctrl_key_pressed_ st) eqn:Hc;
    cbn [orb negb]; try done.
Qed.


(** X6: the press of a shift or ctrl key that reaches the tap detection is
    answered kNoop. When no modifier is tracked it starts the tracking with
    a deadline 500 ms ahead; a shift press leaves the context alone, a ctrl
    press turns temp_ascii off and clears the commit history at once, and
    neither changes ascii_mode. When a modifier is already tracked the
    press changes nothing at all: the first key down wins. *)
Theorem modifier_press_first_key_wins (st : AsciiComposer) (now : Z)
    (key_event : KeyEvent) :
  is_chord key_event = false ->
  caps_lock_switch_style_ st = kAsciiModeSwitchNoop \/ caps key_event = false ->
  is_shift_key (keycode key_event) || is_ctrl_key (keycode key_event) = true ->
  release key_event = false ->
  let st' := snd (ProcessKeyEvent st now key_event) in
  fst (ProcessKeyEvent st now key_event) = kNoop
  /\ get_option (context st') "ascii_mode"
     = get_option (context st) "ascii_mode"
  /\ (shift_key_pressed_ st || ctrl_key_pressed_ st = true -> st' = st)
  /\ (shift_key_pressed_ st || ctrl_key_pressed_ st = false ->
      toggle_expired_ st' = now + 500
      /\ shift_key_pressed_ st' = is_shift_key (keycode key_event)
      /\ ctrl_key_pressed_ st' = is_ctrl_key (keycode key_event)
      /\ (is_shift_key (keycode key_event) = true ->
          context st' = context st)
      /\ (is_ctrl_key (keycode key_event) = true ->
          context st' = TempAsciiOff (context st)
          /\ get_option (context st') "temp_ascii" = false
          /\ commit_history (context st') = [])).
Proof.
  intros Hchord Hcaps Hmod Hpress. cbv zeta.
  rewrite modifier_key_press by done. cbn [fst snd].
  destruct (shift_key_pressed_ st || ctrl_key_pressed_ st).
  { repeat split; done. }
  assert (Hkinds : is_shift_key (keycode key_event) = true
                   /\ is_ctrl_key (keycode key_event) = false
                   \/ is_shift_key (keycode key_event) = false
                      /\ is_ctrl_key (keycode key_event) = true).
  { unfold is_shift_key, is_ctrl_key in *.
    modifier_cases Hmod Hkey; rewrite ?Hkey; eval_keysyms; tauto. }
  destruct Hkinds as [[-> ->] | [-> ->]];
    cbn [context set_toggle_expired set_key_pressed with_context
         shift_key_pressed_ ctrl_key_pressed_ toggle_expired_].
  - repeat split; done.
  - repeat split; try done.
    + apply ascii_mode_TempAsciiOff.
    + apply get_option_TempAsciiOff.
Qed.

(** X7: the release of a shift or ctrl key that reaches the tap detection
    while no press of a key of its kind is tracked (nothing is tracked, or
    only the other kind is) toggles nothing: the context is left as it was,
    the answer is kNoop, and the tracking ends. *)
Theorem release_without_matching_press (st : AsciiComposer) (now : Z)
    (key_event : KeyEvent) :
  is_chord key_event = false ->
  caps_lock_switch_style_ st = kAsciiModeSwitchNoop \/ caps key_event = false ->
  is_shift_key (keycode key_event) || is_ctrl_key (keycode key_event) = true ->
  release key_event = true ->
  is_shift_key (keycode key_event) && shift_key_pressed_ st = false ->
  is_ctrl_key (keycode key_event) && ctrl_key_pressed_ st = false ->
  let st' := snd (ProcessKeyEvent st now key_event) in
  fst (ProcessKeyEvent st now key_event) = kNoop
  /\ st' = (if shift_key_pressed_ st || ctrl_key_pressed_ st
            then set_key_pressed false false st else st)
  /\ context st' = context st
  /\ shift_key_pressed_ st' = false
  /\ ctrl_key_pressed_ st' = false.
Proof.
  intros Hchord Hcaps Hmod Hrelease Hshift Hctrl. cbv zeta.
  rewrite modifier_key_release by done. rewrite Hshift, Hctrl.
  cbn [fst snd orb andb].
  destruct (shift_key_pressed_ st) eqn:Hs, (ctrl_key_pressed_ st) eqn:Hc;
    cbn; by repeat split.
Qed.

(** X8: the release, before the deadline, of a left shift or ctrl key whose
    press is tracked, when the release reaches the tap detection: it is no
    shift+ctrl, alt or super chord, and no caps-lock switch style is
    configured or its caps flag is clear. If the key has no binding, the tap
    only turns temp_ascii off and clears the commit history; ascii_mode and
    the composition stay. If it has one, ascii_mode is negated with the
    style of the binding and [toggle_with_caps_] becomes false. The tracking
    ends either way. *)
Theorem modifier_tap_follows_binding (st : AsciiComposer) (now : Z)
    (key_event : KeyEvent) :
  is_chord key_event = false ->
  caps_lock_switch_style_ st = kAsciiModeSwitchNoop \/ caps key_event = false ->
  is_shift_key (keycode key_event) || is_ctrl_key (keycode key_event) = true ->
  keycode key_event <> XK_Shift_R ->
  release key_event = true ->
  (is_shift_key (keycode key_event) && shift_key_pressed_ st)
    || (is_ctrl_key (keycode key_event) && ctrl_key_pressed_ st) = true ->
  now < toggle_expired_ st ->
  let st' := snd (ProcessKeyEvent st now key_event) in
  shift_key_pressed_ st' = false
  /\ ctrl_key_pressed_ st' = false
  /\ get_option (context st') "temp_ascii" = false
  /\ (bindings_ st !! keycode key_event = None ->
      st' = set_key_pressed false false (with_context TempAsciiOff st))
  /\ (forall style, bindings_ st !! keycode key_event = Some style ->
      st' = set_key_pressed false false
              (set_toggle_with_caps false
                 (SwitchAsciiMode (with_context TempAsciiOff st)
                    (negb (get_option (context st) "ascii_mode")) style))
      /\ get_option (context st') "ascii_mode"
         = negb (get_option (context st) "ascii_mode")
      /\ toggle_with_caps_ st' = false).
Proof.
  intros Hchord Hcaps Hmod Hkey Hrelease Hmatch Hnow. cbv zeta.
  rewrite modifier_key_release by done. rewrite Hmatch.
  apply Z.ltb_lt in Hnow. rewrite Hnow.
  apply Z.eqb_neq in Hkey. rewrite Hkey. cbn [snd andb].
  assert (Htracked : shift_key_pressed_ st || ctrl_key_pressed_ st = true).
  { destruct (shift_key_pressed_ st), (ctrl_key_pressed_ st); try done.
    by rewrite !andb_false_r in Hmatch. }
  rewrite Htracked.
  assert (Hcode : (keycode key_event =? XK_Caps_Lock) = false).
  { modifier_cases Hmod Hk; by rewrite Hk. }
  destruct (bindings_ st !! keycode key_event) as [style|] eqn:Hbound.
  - rewrite (ToggleAsciiModeWithKey_bound _ _ style) by done.
    rewrite Hcode.
    cbn [snd context set_key_pressed set_toggle_with_caps
         shift_key_pressed_ ctrl_key_pressed_ toggle_with_caps_].
    split; [done|]. split; [done|]. split; [|split; [done|]].
    + rewrite SwitchAsciiMode_temp_ascii. apply get_option_TempAsciiOff.
    + intros style' [= <-]. split; [|split; [|done]].
      * cbn [context with_context]. by rewrite ascii_mode_TempAsciiOff.
      * rewrite SwitchAsciiMode_ascii_mode.
        cbn [context with_context]. by rewrite ascii_mode_TempAsciiOff.
  - rewrite ToggleAsciiModeWithKey_unbound by done.
    cbn [snd context set_key_pressed with_context
         shift_key_pressed_ ctrl_key_pressed_].
    split; [done|]. split; [done|]. split; [|split; [done|done]].
    apply get_option_TempAsciiOff.
Qed.


(** A key that is neither Eisu_toggle nor a shift or ctrl key and gets past
    the first two tests reaches the general branch. *)
Lemma other_key (st : AsciiComposer) (now : Z) (key_event : KeyEvent) :
  is_chord key_event = false ->
  passes_caps_lock st key_event ->
  keycode key_event <> XK_Eisu_toggle ->
  is_shift_key (keycode key_event) || is_ctrl_key (keycode key_event) = false ->
  ProcessKeyEvent st now key_event =
  let st0 := set_key_pressed false false st in
  let temp_ascii :=
    (fst (TempAsciiProcess (context st) key_event),
     with_context (fun _ => snd (TempAsciiProcess (context st) key_event)) st0)
  in
  if get_option (context st) "ascii_mode" then
    if negb (IsComposing (context st)) then (kRejected, st0)
    else if negb (release key_event) && (0x20 <=? keycode key_event)
            && (keycode key_event <? 0x80)
    then (kAccepted, updating (PushInput (keycode key_event)) st0)
    else temp_ascii
  else temp_ascii.
Proof.
  intros Hchord Hcaps Heisu Hmod.
  unfold ProcessKeyEvent. unfold is_chord in Hchord. rewrite Hchord.
  rewrite caps_lock_handler_skipped by done.
  apply Z.eqb_neq in Heisu. rewrite Heisu.
  unfold is_shift_key, is_ctrl_key in Hmod. rewrite Hmod.
  cbn [context set_key_pressed].
  by destruct (TempAsciiProcess (context st) key_event).
Qed.

(** X9: a key that reaches the general branch while ascii_mode is on. With
    no composition in progress it is rejected, press or release, so that
    the key is committed directly; nothing but the tracking changes. With a
    composition in progress, the press of a key from 0x20 to 0x7f is
    accepted and pushed to the input: the composition is the one the
    engine gives for the push, temp_ascii and the commit history stay, and
    the temporary-ASCII machine is not consulted. *)
Theorem ascii_mode_commits_or_edits_inline (st : AsciiComposer) (now : Z)
    (key_event : KeyEvent) :
  is_chord key_event = false ->
  passes_caps_lock st key_event ->
  keycode key_event <> XK_Eisu_toggle ->
  is_shift_key (keycode key_event) || is_ctrl_key (keycode key_event) = false ->
  get_option (context st) "ascii_mode" = true ->
  let st' := snd (ProcessKeyEvent st now key_event) in
  (IsComposing (context st) = false ->
   ProcessKeyEvent st now key_event
   = (kRejected, set_key_pressed false false st))
  /\ (IsComposing (context st) = true ->
      release key_event = false ->
      0x20 <= keycode key_event < 0x80 ->
      fst (ProcessKeyEvent st now key_event) = kAccepted
      /\ composition (context st')
         = push_input (keycode key_event) (composition (context st))
      /\ get_option (context st') "temp_ascii"
         = get_option (context st) "temp_ascii"
      /\ commit_history (context st') = commit_history (context st)
      /\ shift_key_pressed_ st' = false
      /\ ctrl_key_pressed_ st' = false
      /\ (connection_ st = false
          \/ is_composing
               (push_input (keycode key_event) (composition (context st)))
             = true ->
          context st' = PushInput (keycode key_event) (context st)
          /\ connection_ st' = connection_ st)).
Proof.
  intros Hchord Hcaps Heisu Hmod Hascii. cbv zeta.
  rewrite other_key by done. cbv zeta. rewrite Hascii.
  split.
  - by intros ->.
  - intros -> -> [Hlow Hhigh].
    apply Z.leb_le in Hlow. apply Z.ltb_lt in Hhigh. rewrite Hlow, Hhigh.
    cbn [negb andb fst snd].
    unfold updating, update_notifier, OnContextUpdate, IsComposing.
    cbn [context connection_ with_context set_key_pressed PushInput
         on_composition composition].
    destruct (connection_ st) eqn:Hconn;
      [destruct (is_composing (push_input _ _)) eqn:Hstill|];
      cbn [negb context composition commit_history shift_key_pressed_
           ctrl_key_pressed_ connection_ with_context disconnect
           set_connection log_call set_option];
      (split; [done|]); (split; [done|]);
      (split; [by rewrite ?get_option_set_option_ne|]);
      (split; [done|]); (split; [done|]); (split; [done|]);
      by intros [|].
Qed.

(** The press of a key that is no shift or ctrl key ends the tracking,
    whichever branch handles it. *)
Lemma press_of_other_key_clears_tracking (st : AsciiComposer) (now : Z)
    (key_event : KeyEvent) :
  release key_event = false ->
  is_shift_key (keycode key_event) || is_ctrl_key (keycode key_event) = false ->
  is_chord key_event = true
    \/ caps_lock_switch_style_ st = kAsciiModeSwitchNoop
    \/ caps key_event = false ->
  shift_key_pressed_ (snd (ProcessKeyEvent st now key_event)) = false
  /\ ctrl_key_pressed_ (snd (ProcessKeyEvent st now key_event)) = false.
Proof.
  intros Hpress Hmod Hgate.
  unfold ProcessKeyEvent. unfold is_chord in Hgate.
  destruct (_ || _ || _); [done|].
  destruct Hgate as [Hgate | Hgate]; [done|].
  assert (Hcaps :
    (if negb (is_noop_style (caps_lock_switch_style_ st))
     then ProcessCapsLock st key_event else (kNoop, st)) = (kNoop, st)
    \/ exists r st1,
         (if negb (is_noop_style (caps_lock_switch_style_ st))
          then ProcessCapsLock st key_event else (kNoop, st)) = (r, st1)
         /\ r <> kNoop
         /\ shift_key_pressed_ st1 = false /\ ctrl_key_pressed_ st1 = false).
  { destruct Hgate as [-> | Hcaps]; [by left|].
    destruct (negb _); [|by left].
    unfold ProcessCapsLock. rewrite Hpress, Hcaps. cbn [negb].
    destruct (keycode key_event =? XK_Caps_Lock); [right | by left].
    repeat case_match;
      try match goal with
      | |- context [SwitchAsciiMode ?st0 ?a ?style] =>
          destruct (SwitchAsciiMode_rebuilt st0 a style) as (? & ? & ->)
      end; by eexists _, _. }
  destruct Hcaps as [-> | (r & st1 & -> & Hr & Hs & Hc)].
  2: { by destruct r. }
  unfold is_shift_key, is_ctrl_key in Hmod. rewrite Hmod, Hpress.
  cbn [negb].
  repeat case_match; cbn [snd];
    repeat match goal with
    | |- context [ToggleAsciiModeWithKey ?st0 ?k] =>
        destruct (ToggleAsciiModeWithKey_rebuilt st0 k) as (? & ? & ? & ->)
    | |- context [updating ?f ?st0] =>
        destruct (updating_rebuilt f st0) as (? & ? & ->)
    end; done.
Qed.

(** X10: the press of another key between the press and the release of a
    shift or ctrl key cancels the tap, provided the press is a chord, or no
    caps-lock switch style is configured, or its caps flag is clear (a
    press with the caps flag asserted is otherwise rejected by the caps-lock
    handler before the tracking is touched). After such a press nothing is
    tracked, and the release of a shift or ctrl key that follows and reaches
    the tap detection (no chord; no caps-lock switch style configured or
    caps flag clear) is answered kNoop and changes nothing, however early
    it comes. *)
Theorem other_key_press_cancels_tap (st : AsciiComposer) (now1 now2 : Z)
    (key_event rel : KeyEvent) :
  release key_event = false ->
  is_shift_key (keycode key_event) || is_ctrl_key (keycode key_event) = false ->
  is_chord key_event = true
    \/ caps_lock_switch_style_ st = kAsciiModeSwitchNoop
    \/ caps key_event = false ->
  is_shift_key (keycode rel) || is_ctrl_key (keycode rel) = true ->
  release rel = true ->
  is_chord rel = false ->
  caps_lock_switch_style_ st = kAsciiModeSwitchNoop \/ caps rel = false ->
  let st1 := snd (ProcessKeyEvent st now1 key_event) in
  shift_key_pressed_ st1 = false
  /\ ctrl_key_pressed_ st1 = false
  /\ ProcessKeyEvent st1 now2 rel = (kNoop, st1).
Proof.
  intros Hpress Hother Hgate Hmod Hrelease Hchord Hcaps. cbv zeta.
  destruct (press_of_other_key_clears_tracking st now1 key_event)
    as [Hs Hc]; [done..|].
  split; [done|]. split; [done|].
  rewrite modifier_key_release; [by rewrite Hs, Hc | done | | done | done].
  destruct (ProcessKeyEvent_rebuilt st now1 key_event)
    as (ctx & twc & conn & s & c & t & -> & _).
  exact Hcaps.
Qed.

(** X11: the Eisu_toggle key, when it gets past the first two tests. Its
    release is rejected and changes nothing. Its press is always accepted
    and ends the tracking; it negates ascii_mode when the key has a
    binding, and changes nothing else when it has none. *)
Theorem eisu_toggle_key (st : AsciiComposer) (now : Z)
    (key_event : KeyEvent) :
  keycode key_event = XK_Eisu_toggle ->
  is_chord key_event = false ->
  caps_lock_switch_style_ st = kAsciiModeSwitchNoop \/ caps key_event = false ->
  let st' := snd (ProcessKeyEvent st now key_event) in
  (release key_event = true ->
   ProcessKeyEvent st now key_event = (kRejected, st))
  /\ (release key_event = false ->
      fst (ProcessKeyEvent st now key_event) = kAccepted
      /\ shift_key_pressed_ st' = false
      /\ ctrl_key_pressed_ st' = false
      /\ (bindings_ st !! XK_Eisu_toggle = None ->
          st' = set_key_pressed false false st)
      /\ (is_Some (bindings_ st !! XK_Eisu_toggle) ->
          get_option (context st') "ascii_mode"
          = negb (get_option (context st) "ascii_mode")
          /\ toggle_with_caps_ st' = false)).
Proof.
  intros Hkey Hchord Hcaps. cbv zeta.
  unfold ProcessKeyEvent. unfold is_chord in Hchord. rewrite Hchord.
  rewrite caps_lock_handler_passes by (by rewrite ?Hkey).
  rewrite Hkey. eval_keysyms. cbv iota.
  split.
  - by intros ->.
  - intros ->. cbn [negb fst snd].
    destruct (ToggleAsciiModeWithKey_rebuilt
                (set_key_pressed false false st) XK_Eisu_toggle)
      as (ctx & twc & conn & Hshape).
    split; [done|]. rewrite Hshape at 1 2. split; [done|]. split; [done|].
    clear Hshape. split.
    + intros Hnone. by rewrite ToggleAsciiModeWithKey_unbound.
    + intros [style Hbound].
      rewrite (ToggleAsciiModeWithKey_bound _ _ style) by done.
      eval_keysyms.
      cbn [snd context set_toggle_with_caps toggle_with_caps_].
      by rewrite SwitchAsciiMode_ascii_mode.
Qed.


(** ** Caps lock, the other way *)

Lemma isalpha_isascii (ch : Z) : isalpha ch = true -> isascii ch = true.
Proof. unfold isalpha, isascii, islower, isupper. lia. Qed.

(** X12: with a caps-lock switch style configured and the conventional caps
    lock turned off, a key event other than Caps_Lock whose caps flag is
    asserted and which is no shift+ctrl, alt or super chord never reaches
    the composition. The press of an ASCII letter
    without ctrl is accepted and the letter is committed directly with its
    case inverted, lowercase to uppercase and uppercase to lowercase; the
    composition and the options stay. A release, a press with ctrl, or a
    key that is no ASCII letter is rejected and changes nothing. *)
Theorem caps_ignored_commits_inverted_case (st : AsciiComposer) (now : Z)
    (key_event : KeyEvent) :
  caps_lock_switch_style_ st <> kAsciiModeSwitchNoop ->
  good_old_caps_lock_ st = false ->
  caps key_event = true ->
  keycode key_event <> XK_Caps_Lock ->
  is_chord key_event = false ->
  let ch := keycode key_event in
  (release key_event = false -> ctrl key_event = false ->
   islower ch = true ->
   ProcessKeyEvent st now key_event
   = (kAccepted, with_context (CommitText (string_of_char (ch - 32))) st))
  /\ (release key_event = false -> ctrl key_event = false ->
      isupper ch = true ->
      ProcessKeyEvent st now key_event
      = (kAccepted, with_context (CommitText (string_of_char (ch + 32))) st))
  /\ (release key_event = true \/ ctrl key_event = true
      \/ isalpha ch = false ->
      ProcessKeyEvent st now key_event = (kRejected, st))
  /\ (forall text, composition (CommitText text (context st))
                   = composition (context st)
                   /\ options (CommitText text (context st))
                      = options (context st)).
Proof.
  intros Hstyle Hgood Hcaps Hkey Hchord ch.
  assert (Hrun : ProcessKeyEvent st now key_event =
    if negb (release key_event) && negb (ctrl key_event) && isalpha ch then
      (kAccepted,
       with_context
         (CommitText
            (string_of_char
               (if islower ch then toupper ch
                else if isupper ch then tolower ch else ch))) st)
    else (kRejected, st)).
  { unfold ProcessKeyEvent. unfold is_chord in Hchord.
    rewrite Hchord, (is_noop_style_false _ Hstyle).
    unfold ProcessCapsLock. apply Z.eqb_neq in Hkey.
    rewrite Hkey, Hcaps, Hgood. fold ch. cbn [negb andb].
    destruct (negb (release key_event) && negb (ctrl key_event)) eqn:Hpress;
      [|by rewrite !andb_false_l].
    destruct (isalpha ch) eqn:Halpha;
      [rewrite (isalpha_isascii _ Halpha) | rewrite andb_false_r]; done. }
  rewrite Hrun. split; [|split; [|split]].
  - intros -> -> Hlower. unfold isalpha, toupper. by rewrite Hlower.
  - intros -> -> Hupper.
    assert (Hlower : islower ch = false)
      by (unfold islower, isupper in *; lia).
    unfold isalpha, tolower. by rewrite Hlower, Hupper.
  - intros [-> | [-> | ->]]; [done | |]; by rewrite ?andb_false_r.
  - done.
Qed.

(** X13: the press of Caps_Lock with a caps-lock switch style configured,
    the key event being no shift+ctrl, alt or super chord.
    It is rejected, with nothing but the tracking changed, exactly when the
    conventional caps lock is on, ascii_mode is on and was not switched on
    by caps lock. Otherwise it is accepted and ascii_mode does not toggle:
    it becomes the negation of the caps flag of the event, whatever it was,
    and so does [toggle_with_caps_]. The release of Caps_Lock, when it is
    no chord, is rejected and changes nothing. *)
Theorem caps_lock_sets_mode_from_caps_flag (st : AsciiComposer) (now : Z)
    (key_event : KeyEvent) :
  caps_lock_switch_style_ st <> kAsciiModeSwitchNoop ->
  keycode key_event = XK_Caps_Lock ->
  is_chord key_event = false ->
  let st' := snd (ProcessKeyEvent st now key_event) in
  let suppressed :=
    good_old_caps_lock_ st && negb (toggle_with_caps_ st)
    && get_option (context st) "ascii_mode" in
  (release key_event = true ->
   ProcessKeyEvent st now key_event = (kRejected, st))
  /\ (release key_event = false -> suppressed = true ->
      ProcessKeyEvent st now key_event
      = (kRejected, set_key_pressed false false st))
  /\ (release key_event = false -> suppressed = false ->
      fst (ProcessKeyEvent st now key_event) = kAccepted
      /\ get_option (context st') "ascii_mode" = negb (caps key_event)
      /\ toggle_with_caps_ st' = negb (caps key_event)
      /\ shift_key_pressed_ st' = false
      /\ ctrl_key_pressed_ st' = false).
Proof.
  intros Hstyle Hkey Hchord. cbv zeta.
  unfold ProcessKeyEvent. unfold is_chord in Hchord.
  rewrite Hchord, (is_noop_style_false _ Hstyle).
  unfold ProcessCapsLock. rewrite Hkey. eval_keysyms. cbv iota.
  split; [by intros ->|].
  cbn [negb set_key_pressed good_old_caps_lock_ toggle_with_caps_ context
       caps_lock_switch_style_].
  set (st0 := set_toggle_with_caps (negb (caps key_event))
                (set_key_pressed false false st)).
  destruct (SwitchAsciiMode_fields st0 (negb (caps key_event))
              (caps_lock_switch_style_ st))
    as (_ & _ & _ & Htoggle & Hs & Hc & _).
  pose proof (SwitchAsciiMode_ascii_mode st0 (negb (caps key_event))
                (caps_lock_switch_style_ st)) as Hmode.
  destruct (good_old_caps_lock_ st && negb (toggle_with_caps_ st));
    destruct (get_option (context st) "ascii_mode");
    (split; intros -> Hsuppressed; cbn [negb andb] in *; try done);
    cbn [fst snd]; fold st0; by rewrite Hmode, Htoggle, Hs, Hc.
Qed.

(** X14: caps lock yields to a mode chosen with another key. After
    ascii_mode has been switched on by the toggle of a bound key other than
    Caps_Lock, the press of Caps_Lock that is no shift+ctrl, alt or super
    chord, under the conventional caps lock with a caps-lock switch style
    configured, is rejected and ascii_mode stays on. *)
Theorem caps_lock_yields_to_other_toggle (st : AsciiComposer)
    (key_code : Z) (now : Z) (key_event : KeyEvent) :
  is_Some (bindings_ st !! key_code) ->
  key_code <> XK_Caps_Lock ->
  get_option (context st) "ascii_mode" = false ->
  good_old_caps_lock_ st = true ->
  caps_lock_switch_style_ st <> kAsciiModeSwitchNoop ->
  keycode key_event = XK_Caps_Lock ->
  release key_event = false ->
  is_chord key_event = false ->
  let st1 := snd (ToggleAsciiModeWithKey st key_code) in
  get_option (context st1) "ascii_mode" = true
  /\ toggle_with_caps_ st1 = false
  /\ ProcessKeyEvent st1 now key_event
     = (kRejected, set_key_pressed false false st1).
Proof.
  intros [style Hbound] Hkey Hnative Hgood Hstyle Hcode Hpress Hchord.
  cbv zeta. rewrite (ToggleAsciiModeWithKey_bound _ _ style) by done.
  apply Z.eqb_neq in Hkey. rewrite Hkey, Hnative. cbn [snd negb].
  destruct (SwitchAsciiMode_fields st true style)
    as (_ & Hstyle' & Hgood' & _).
  pose proof (SwitchAsciiMode_ascii_mode st true style) as Hmode.
  split; [done|]. split; [done|].
  rewrite caps_lock_press; try done.
  - cbn [toggle_with_caps_ set_toggle_with_caps context negb andb].
    by rewrite Hmode.
  - cbn [good_old_caps_lock_ set_toggle_with_caps]. by rewrite Hgood'.
  - cbn [caps_lock_switch_style_ set_toggle_with_caps]. by rewrite Hstyle'.
Qed.

(** X15: the toggle of a key. Without a binding it answers false and
    changes nothing. With one it answers true and negates ascii_mode, so
    that toggling twice with the key restores ascii_mode;
    [toggle_with_caps_] records whether the key was Caps_Lock. *)
Theorem toggle_twice_restores_ascii_mode (st : AsciiComposer) (key_code : Z) :
  let st1 := snd (ToggleAsciiModeWithKey st key_code) in
  let st2 := snd (ToggleAsciiModeWithKey st1 key_code) in
  (bindings_ st !! key_code = None ->
   ToggleAsciiModeWithKey st key_code = (false, st))
  /\ (is_Some (bindings_ st !! key_code) ->
      fst (ToggleAsciiModeWithKey st key_code) = true
      /\ fst (ToggleAsciiModeWithKey st1 key_code) = true
      /\ get_option (context st1) "ascii_mode"
         = negb (get_option (context st) "ascii_mode")
      /\ get_option (context st2) "ascii_mode"
         = get_option (context st) "ascii_mode"
      /\ toggle_with_caps_ st1 = (key_code =? XK_Caps_Lock)
      /\ toggle_with_caps_ st2 = (key_code =? XK_Caps_Lock)).
Proof.
  cbv zeta. split; [apply ToggleAsciiModeWithKey_unbound|].
  intros [style Hbound].
  rewrite (ToggleAsciiModeWithKey_bound st _ style) by done. cbn [fst snd].
  set (st1 := set_toggle_with_caps (key_code =? XK_Caps_Lock)
                (SwitchAsciiMode st
                   (negb (get_option (context st) "ascii_mode")) style)).
  assert (Hbound1 : bindings_ st1 !! key_code = Some style).
  { subst st1. cbn [bindings_ set_toggle_with_caps].
    destruct (SwitchAsciiMode_fields st
                (negb (get_option (context st) "ascii_mode")) style)
      as (-> & _). done. }
  assert (Hmode1 : get_option (context st1) "ascii_mode"
                   = negb (get_option (context st) "ascii_mode")).
  { subst st1. cbn [context set_toggle_with_caps].
    apply SwitchAsciiMode_ascii_mode. }
  rewrite (ToggleAsciiModeWithKey_bound st1 _ style) by done.
  cbn [fst snd context set_toggle_with_caps toggle_with_caps_].
  rewrite SwitchAsciiMode_ascii_mode, Hmode1, negb_involutive.
  by repeat split.
Qed.


(** ** The mode switch and the configuration, further *)

(** X16: what a mode switch does. It always leaves ascii_mode at the target
    and never touches temp_ascii. With no composition in progress that is
    all: the style is ignored and the subscription is left as it is. With a
    composition in progress the subscription is cancelled and only the
    inline style with target true installs one again; the composition is
    confirmed, committed after its unconfirmed part is dropped, or cleared,
    as the style says, and is kept by the inline and no-op styles. *)
Theorem mode_switch_effect (st : AsciiComposer) (ascii_mode : bool)
    (style : AsciiModeSwitchStyle) :
  let st' := SwitchAsciiMode st ascii_mode style in
  get_option (context st') "ascii_mode" = ascii_mode
  /\ get_option (context st') "temp_ascii"
     = get_option (context st) "temp_ascii"
  /\ (IsComposing (context st) = false ->
      st' = with_context (set_option "ascii_mode" ascii_mode) st
      /\ connection_ st' = connection_ st
      /\ composition (context st') = composition (context st)
      /\ commit_history (context st') = commit_history (context st))
  /\ (IsComposing (context st) = true ->
      connection_ st'
      = match style with
        | kAsciiModeSwitchInline => ascii_mode
        | _ => false
        end
      /\ composition (context st')
         = match style with
           | kAsciiModeSwitchInline | kAsciiModeSwitchNoop =>
               composition (context st)
           | kAsciiModeSwitchCommitText =>
               confirm_current_selection (composition (context st))
           | kAsciiModeSwitchCommitCode =>
               fst (commit
                      (clear_non_confirmed_composition
                         (composition (context st)))
                      (commit_history (context st)))
           | kAsciiModeSwitchClear => clear (composition (context st))
           end
      /\ (style <> kAsciiModeSwitchCommitCode ->
          commit_history (context st') = commit_history (context st))).
Proof.
  cbv zeta.
  split; [apply SwitchAsciiMode_ascii_mode|].
  split; [apply SwitchAsciiMode_temp_ascii|].
  rewrite SwitchAsciiMode_unfold.
  split; intros ->; [done|].
  destruct style, ascii_mode; cbn; unfold Commit; cbn;
    try destruct (commit _ _); by repeat split.
Qed.

Lemma load_bindings_never_noop (src : option ConfigMap) (k : Z) :
  load_bindings src ∅ !! k <> Some kAsciiModeSwitchNoop.
Proof.
  destruct src as [entries|]; simpl; [|by rewrite lookup_empty].
  intros Hlookup.
  destruct (load_bindings_lookup _ _ _ _ Hlookup)
    as [(it & _ & value & ke & _ & _ & Hnoop & _) | Hempty]; [done|].
  by rewrite lookup_empty in Hempty.
Qed.

(** The bindings [LoadConfig] leaves are loaded from the empty table. *)
Lemma LoadConfig_bindings (st : AsciiComposer) (schema preset : option Config) :
  exists src, bindings_ (LoadConfig st schema preset) = load_bindings src ∅.
Proof.
  unfold LoadConfig.
  destruct schema as [config|]; [|by exists None].
  destruct (get_switch_key config) as [bindings|].
  - by exists (Some bindings).
  - destruct preset as [preset|]; [|by exists None].
    destruct (get_switch_key preset) as [bindings|];
      [by exists (Some bindings) | by exists None].
Qed.

Lemma LoadConfig_caps_lock_style (st : AsciiComposer)
    (schema preset : option Config) :
  caps_lock_switch_style_ (LoadConfig st schema preset)
  = match bindings_ (LoadConfig st schema preset) !! XK_Caps_Lock with
    | Some kAsciiModeSwitchInline => kAsciiModeSwitchClear
    | Some style => style
    | None => kAsciiModeSwitchNoop
    end.
Proof.
  unfold LoadConfig.
  destruct schema as [config|]; [|done].
  destruct (get_switch_key config) as [bindings|]; [done|].
  destruct preset as [preset|]; [|done].
  by destruct (get_switch_key preset).
Qed.

Lemma LoadConfig_set_config (st : AsciiComposer)
    (schema preset : option Config) :
  LoadConfig st schema preset
  = set_config (bindings_ (LoadConfig st schema preset))
      (caps_lock_switch_style_ (LoadConfig st schema preset))
      (good_old_caps_lock_ (LoadConfig st schema preset)) st.
Proof.
  unfold LoadConfig. destruct schema as [config|]; [|done].
  destruct (get_switch_key config); [done|].
  destruct preset as [p|]; [|done]. by destruct (get_switch_key p).
Qed.

Lemma LoadConfig_replaces (st : AsciiComposer)
    (schema0 preset0 schema preset : option Config) :
  LoadConfig (LoadConfig st schema0 preset0) schema preset
  = LoadConfig st schema preset.
Proof.
  rewrite (LoadConfig_set_config st schema0 preset0).
  generalize (bindings_ (LoadConfig st schema0 preset0)),
    (caps_lock_switch_style_ (LoadConfig st schema0 preset0)),
    (good_old_caps_lock_ (LoadConfig st schema0 preset0)).
  intros b s g. unfold LoadConfig.
  destruct schema as [config|]; [|done].
  destruct (get_switch_key config); [done|].
  destruct preset as [p|]; [|done]. by destruct (get_switch_key p).
Qed.

(** X17: what [LoadConfig] leaves in the composer. No binding maps a key to
    the no-op style. The caps-lock switch style is never the inline style:
    it is the style bound to Caps_Lock, with clear standing in for inline,
    and it is the no-op style exactly when Caps_Lock has no binding. With
    no schema the composer has no bindings, the no-op caps-lock style and
    the conventional caps lock off. The context, the tracking and the
    subscription are not touched, and loading replaces all the settings:
    what was loaded before does not matter. *)
Theorem load_config_settings (st : AsciiComposer)
    (schema preset : option Config) :
  let st' := LoadConfig st schema preset in
  (forall k, bindings_ st' !! k <> Some kAsciiModeSwitchNoop)
  /\ caps_lock_switch_style_ st' <> kAsciiModeSwitchInline
  /\ (caps_lock_switch_style_ st' = kAsciiModeSwitchNoop
      <-> bindings_ st' !! XK_Caps_Lock = None)
  /\ (forall style, bindings_ st' !! XK_Caps_Lock = Some style ->
      caps_lock_switch_style_ st'
      = match style with
        | kAsciiModeSwitchInline => kAsciiModeSwitchClear
        | _ => style
        end)
  /\ (schema = None ->
      bindings_ st' = ∅
      /\ caps_lock_switch_style_ st' = kAsciiModeSwitchNoop
      /\ good_old_caps_lock_ st' = false)
  /\ st' = set_config (bindings_ st') (caps_lock_switch_style_ st')
             (good_old_caps_lock_ st') st
  /\ (forall schema0 preset0,
        LoadConfig (LoadConfig st schema0 preset0) schema preset = st').
Proof.
  cbv zeta.
  assert (Hnoop : forall k, bindings_ (LoadConfig st schema preset) !! k
                            <> Some kAsciiModeSwitchNoop).
  { intros k. destruct (LoadConfig_bindings st schema preset) as [src ->].
    apply load_bindings_never_noop. }
  split; [done|].
  pose proof (LoadConfig_caps_lock_style st schema preset) as Hstyle.
  pose proof (Hnoop XK_Caps_Lock) as Hcaps.
  split; [|split; [|split; [|split; [|split]]]].
  - rewrite Hstyle. by repeat case_match.
  - rewrite Hstyle.
    destruct (bindings_ (LoadConfig st schema preset) !! XK_Caps_Lock)
      as [[]|]; by split.
  - intros style Hbound. rewrite Hstyle, Hbound. by destruct style.
  - by intros ->.
  - apply LoadConfig_set_config.
  - intros schema0 preset0. apply LoadConfig_replaces.
Qed.

(** X18: the schema's own settings take precedence. When the schema has a
    switch_key map the bindings are loaded from it and the preset is not
    consulted, even when the map is empty: then no key is bound and the
    caps-lock style is the no-op one. When the schema sets the
    conventional-caps-lock flag, that value is used. The preset is used for
    a setting only when the schema does not have it, and the flag is read
    even when no switch_key map is found anywhere. *)
Theorem schema_settings_take_precedence (st : AsciiComposer)
    (config : Config) (preset : option Config) :
  let st' := LoadConfig st (Some config) preset in
  (forall entries, get_switch_key config = Some entries ->
     bindings_ st' = load_bindings (Some entries) ∅)
  /\ (get_switch_key config = Some [] ->
      bindings_ st' = ∅
      /\ caps_lock_switch_style_ st' = kAsciiModeSwitchNoop)
  /\ (forall b, get_good_old_caps_lock config = Some b ->
      good_old_caps_lock_ st' = b)
  /\ (get_switch_key config = None ->
      forall p, preset = Some p ->
      bindings_ st' = load_bindings (get_switch_key p) ∅)
  /\ (get_good_old_caps_lock config = None ->
      forall p, preset = Some p ->
      good_old_caps_lock_ st' = default false (get_good_old_caps_lock p))
  /\ (preset = None ->
      get_switch_key config = None ->
      bindings_ st' = ∅
      /\ good_old_caps_lock_ st'
         = default false (get_good_old_caps_lock config)).
Proof.
  cbv zeta. unfold LoadConfig.
  split; [by intros entries ->|].
  split; [by intros ->|].
  split; [intros b ->; by repeat case_match|].
  split; [intros -> p ->; by destruct (get_switch_key p)|].
  split; [intros -> p ->; by repeat case_match|].
  intros -> ->. by destruct (get_good_old_caps_lock config).
Qed.


(** ** The temporary-ASCII machine, further *)

(** A key that is a transform trigger in temporary-ASCII mode is one in
    normal mode too. *)
Lemma MayProcessTransform_mandatory (ch : Z) :
  MayProcessTransform ch false = true -> MayProcessTransform ch true = true.
Proof. unfold MayProcessTransform. by repeat case_match. Qed.

(** The transform triggers are printable and are no lowercase letters. *)
Lemma MayProcessTransform_printable (ch : Z) (optional : bool) :
  MayProcessTransform ch optional = true ->
  IsPrintable ch = true /\ IsLower ch = false.
Proof. unfold MayProcessTransform. by repeat case_match. Qed.

(** X19: whatever the key event and the context, the temporary-ASCII
    machine never accepts a key, never changes ascii_mode or the
    composition, and sets no option but temp_ascii. It rejects a key only
    when the key is a press, no composition is in progress, and temp_ascii
    is on afterwards; and whenever it changes the context at all, the
    commit history is empty afterwards. *)
Theorem temp_ascii_machine_frame (ctx : Context) (key_event : KeyEvent) :
  let r := fst (TempAsciiProcess ctx key_event) in
  let ctx' := snd (TempAsciiProcess ctx key_event) in
  r <> kAccepted
  /\ get_option ctx' "ascii_mode" = get_option ctx "ascii_mode"
  /\ composition ctx' = composition ctx
  /\ (forall name, name <> "temp_ascii" ->
      get_option ctx' name = get_option ctx name)
  /\ (r = kRejected ->
      release key_event = false
      /\ IsComposing ctx = false
      /\ get_option ctx' "temp_ascii" = true)
  /\ (ctx' <> ctx -> commit_history ctx' = []).
Proof.
  cbv zeta.
  assert (Hframe : forall (b : bool) name, name <> "temp_ascii" ->
            get_option (commit_history_clear (set_option "temp_ascii" b ctx))
              name = get_option ctx name).
  { intros b name Hname.
    rewrite get_option_commit_history_clear.
    by apply get_option_set_option_ne. }
  unfold TempAsciiProcess, TempAsciiOn, TempAsciiOff.
  destruct (release key_event) eqn:Hrelease; [by repeat split|].
  cbn [orb].
  destruct (IsComposing ctx) eqn:Hcomposing,
           (get_option ctx "temp_ascii") eqn:Htemp;
    repeat case_match; cbn [fst snd]; repeat split; try done;
    try (intros; by apply Hframe);
    try (intros; by apply get_option_TempAsciiOn).
Qed.

(** The machine with temp_ascii on and no composition in progress, for a
    press that gets past its first two tests. *)
Lemma TempAsciiProcess_on_idle (ctx : Context) (key_event : KeyEvent) :
  get_option ctx "temp_ascii" = true ->
  IsComposing ctx = false ->
  release key_event = false ->
  keycode key_event <> XK_BackSpace ->
  keycode key_event <> XK_Delete ->
  ~ (keycode key_event = XK_space /\ shift key_event = true) ->
  TempAsciiProcess ctx key_event =
  if (keycode key_event =? XK_space) || negb (IsPrintable (keycode key_event))
     || MayProcessTransform (keycode key_event) false
  then (kNoop, TempAsciiOff ctx) else (kRejected, ctx).
Proof.
  intros Hon Hidle Hpress Hbs Hdel Hspace.
  assert (Hshifted : (keycode key_event =? XK_space) && shift key_event
                     = false).
  { apply andb_false_iff.
    destruct (Z.eqb_spec (keycode key_event) XK_space) as [Heq|]; [|by left].
    right. destruct (shift key_event); [|done].
    exfalso. by apply Hspace. }
  unfold TempAsciiProcess.
  rewrite (not_release_nor_erase key_event Hpress Hbs Hdel).
  rewrite Hidle, Hon. simpl negb. rewrite <- andb_assoc, Hshifted.
  reflexivity.
Qed.

(** X20: while temp_ascii is on and no composition is in progress, a press
    of a key other than backspace, delete and shifted space leaves the mode
    when the key is space, is not printable (below space or above tilde), or
    is one of the mandatory transform triggers the specification lists: the
    key is answered kNoop for the rest of the pipeline to handle, temp_ascii
    is turned off and the commit history cleared. Any other key, the
    optional triggers of the specification among them, is rejected and the
    context is left as it was. *)
Theorem temp_ascii_on_idle (ctx : Context) (key_event : KeyEvent) :
  get_option ctx "temp_ascii" = true ->
  IsComposing ctx = false ->
  release key_event = false ->
  keycode key_event <> XK_BackSpace ->
  keycode key_event <> XK_Delete ->
  ~ (keycode key_event = XK_space /\ shift key_event = true) ->
  let ch := keycode key_event in
  (ch = 32 \/ (ch < 32 \/ 126 < ch) \/ ch ∈ spec_mandatory_triggers ->
   TempAsciiProcess ctx key_event = (kNoop, TempAsciiOff ctx)
   /\ get_option (TempAsciiOff ctx) "temp_ascii" = false
   /\ commit_history (TempAsciiOff ctx) = [])
  /\ (ch <> 32 -> 32 <= ch <= 126 -> ch ∉ spec_mandatory_triggers ->
      TempAsciiProcess ctx key_event = (kRejected, ctx))
  /\ (ch ∈ spec_optional_triggers ->
      TempAsciiProcess ctx key_event = (kRejected, ctx)).
Proof.
  intros Hon Hidle Hpress Hbs Hdel Hspace ch.
  set (ch' := keycode key_event) in *. subst ch. rename ch' into ch.
  pose proof (TempAsciiProcess_on_idle ctx key_event Hon Hidle Hpress Hbs
                Hdel Hspace) as Hrun.
  fold ch in Hrun.
  assert (Hswallowed : ch <> 32 -> 32 <= ch <= 126 ->
                       ch ∉ spec_mandatory_triggers ->
                       TempAsciiProcess ctx key_event = (kRejected, ctx)).
  { intros Hne Hprintable Hmandatory. rewrite Hrun.
    apply IsPrintable_range in Hprintable. rewrite Hprintable.
    destruct (Z.eqb_spec ch XK_space) as [Heq|_]; [done|].
    destruct (MayProcessTransform ch false) eqn:Ht; [|done].
    exfalso. by apply Hmandatory, MayProcessTransform_mandatory_keys. }
  split; [|split; [done|]].
  - intros Hleave. rewrite Hrun.
    split; [|split; [apply get_option_TempAsciiOff | done]].
    destruct Hleave as [-> | [Hout | Htrigger]]; [done| |].
    + destruct (IsPrintable ch) eqn:Hprintable.
      * apply IsPrintable_range in Hprintable. lia.
      * by rewrite orb_true_r.
    + apply MayProcessTransform_mandatory_keys in Htrigger.
      by rewrite Htrigger, orb_true_r.
  - intros Hoptional. apply list_elem_of_In in Hoptional.
    unfold spec_optional_triggers in Hoptional. simpl in Hoptional.
    apply Hswallowed; [lia | lia |].
    rewrite list_elem_of_In. unfold spec_mandatory_triggers. simpl. lia.
Qed.

Lemma IsPrintable_char (c : ascii) :
  IsPrintable (char_to_int c) = true
  <-> (32 <= N_of_ascii c <= 126)%N.
Proof.
  unfold IsPrintable, char_to_int, XK_space, XK_asciitilde.
  pose proof (N_ascii_bounded c) as Hbound.
  destruct (Z.ltb_spec (Z.of_N (N_of_ascii c)) 128); lia.
Qed.

(** X21: while temp_ascii is off and a composition is in progress, a press
    of a key other than backspace and delete is always answered kNoop.
    Return turns temp_ascii on exactly when every character of the latest
    committed text is an ASCII character from space to tilde, so that a
    text with one byte from 128 on keeps the mode off; any other key, and
    Return otherwise, leave the context as it was. *)
Theorem temp_ascii_off_composing (ctx : Context) (key_event : KeyEvent) :
  get_option ctx "temp_ascii" = false ->
  IsComposing ctx = true ->
  release key_event = false ->
  keycode key_event <> XK_BackSpace ->
  keycode key_event <> XK_Delete ->
  let printable :=
    Forall (fun c => (32 <= N_of_ascii c <= 126)%N)
      (string_chars (latest_text ctx)) in
  fst (TempAsciiProcess ctx key_event) = kNoop
  /\ (keycode key_event = XK_Return -> printable ->
      TempAsciiProcess ctx key_event = (kNoop, TempAsciiOn ctx))
  /\ (keycode key_event <> XK_Return \/ ~ printable ->
      TempAsciiProcess ctx key_event = (kNoop, ctx)).
Proof.
  intros Hoff Hcomposing Hpress Hbs Hdel printable.
  assert (Hall : all_printable (latest_text ctx) = true <-> printable).
  { unfold all_printable, printable. rewrite forallb_forall, Forall_forall.
    split; intros Hchars c Hc.
    - apply IsPrintable_char, Hchars. by apply list_elem_of_In.
    - apply IsPrintable_char, Hchars. by apply list_elem_of_In. }
  assert (Hrun : TempAsciiProcess ctx key_event =
    if keycode key_event =? XK_Return then
      if all_printable (latest_text ctx) then (kNoop, TempAsciiOn ctx)
      else (kNoop, ctx)
    else (kNoop, ctx)).
  { unfold TempAsciiProcess.
    rewrite (not_release_nor_erase key_event Hpress Hbs Hdel).
    by rewrite Hcomposing, Hoff. }
  rewrite Hrun. split; [by repeat case_match|]. split.
  - intros -> Hprintable. apply Hall in Hprintable.
    by rewrite Hprintable.
  - intros [Hkey | Hnot].
    + apply Z.eqb_neq in Hkey. by rewrite Hkey.
    + destruct (all_printable (latest_text ctx)) eqn:Hp.
      * exfalso. by apply Hnot, Hall.
      * by destruct (_ =? _).
Qed.

(** X22: the key that turns temp_ascii on from the idle state is swallowed
    again when it is pressed again, and temp_ascii stays on, unless the key
    is space: a second space turns temp_ascii off and is passed on. *)
Theorem entering_key_pressed_again (ctx : Context) (key_event : KeyEvent) :
  get_option ctx "temp_ascii" = false ->
  IsComposing ctx = false ->
  release key_event = false ->
  ~ (keycode key_event = XK_space /\ shift key_event = true) ->
  let ch := keycode key_event in
  IsLower ch = false -> IsPrintable ch = true ->
  MayProcessTransform ch true = false ->
  TempAsciiProcess ctx key_event = (kRejected, TempAsciiOn ctx)
  /\ (ch <> XK_space ->
      TempAsciiProcess (TempAsciiOn ctx) key_event
      = (kRejected, TempAsciiOn ctx))
  /\ (ch = XK_space ->
      TempAsciiProcess (TempAsciiOn ctx) key_event
      = (kNoop, TempAsciiOff (TempAsciiOn ctx))
      /\ get_option (TempAsciiOff (TempAsciiOn ctx)) "temp_ascii" = false).
Proof.
  intros Hoff Hidle Hpress Hspace ch Hlower Hprintable Htransform.
  assert (Hbs : keycode key_event <> XK_BackSpace).
  { intros Hkey. subst ch. by rewrite Hkey in Hprintable. }
  assert (Hdel : keycode key_event <> XK_Delete).
  { intros Hkey. subst ch. by rewrite Hkey in Hprintable. }
  assert (Hmandatory : MayProcessTransform ch false = false).
  { destruct (MayProcessTransform ch false) eqn:Hm; [|done].
    apply MayProcessTransform_mandatory in Hm. congruence. }
  split; [|split].
  - unfold TempAsciiProcess.
    rewrite (not_release_nor_erase key_event Hpress Hbs Hdel). fold ch.
    rewrite Hidle, Hoff, Hlower, Hprintable, Htransform. cbn [negb orb andb].
    destruct (ch =? XK_space) eqn:Hsp; [|done].
    destruct (shift key_event) eqn:Hshift; [|done].
    exfalso. apply Hspace. by apply Z.eqb_eq in Hsp.
  - intros Hne.
    rewrite TempAsciiProcess_on_idle;
      [| apply get_option_TempAsciiOn | done..].
    fold ch. apply Z.eqb_neq in Hne.
    by rewrite Hne, Hprintable, Hmandatory.
  - intros Heq. split; [|apply get_option_TempAsciiOff].
    rewrite TempAsciiProcess_on_idle;
      [| apply get_option_TempAsciiOn | done..].
    fold ch. by rewrite Heq.
Qed.


End Properties.

(** * Concrete runs

    The properties applied to the small engine, and the runs on which the
    specification and the code part ways. *)

#[local] Existing Instance Demo.engine.

(** *** The tap of the right shift key *)

(** A tap of the right shift key in ASCII mode, the release 200 ms after the
    press: the press is tracked, the release comes before the deadline, and
    ascii_mode, which was true, is not true afterwards. *)
Lemma right_shift_tap_leaves_ascii_mode_false :
  get_option (context Demo.idle_ascii) "ascii_mode" = true
  /\ shift_key_pressed_
       (snd (ProcessKeyEvent Demo.idle_ascii 1000 (Demo.press XK_Shift_R 0)))
     = true
  /\ 1200 < toggle_expired_
       (snd (ProcessKeyEvent Demo.idle_ascii 1000 (Demo.press XK_Shift_R 0)))
  /\ get_option
       (context
          (snd (process_two Demo.idle_ascii
                  1000 (Demo.press XK_Shift_R 0)
                  1200 (Demo.release_of XK_Shift_R kShiftMask))))
       "ascii_mode" <> true.
Proof. vm_compute. repeat split; discriminate. Qed.

Lemma right_shift_tap_forces_native_mode_witness :
  get_option
    (context
       (snd (process_two Demo.composing
               1000 (Demo.press XK_Shift_R 0)
               1200 (Demo.release_of XK_Shift_R kShiftMask))))
    "ascii_mode" = false.
Proof.
  pose proof (right_shift_tap_forces_native_mode Demo.composing 1000 1200
                (Demo.press XK_Shift_R 0)
                (Demo.release_of XK_Shift_R kShiftMask)) as Htap.
  destruct (process_two _ _ _ _ _) as [[st1 r] st2].
  apply Htap;
    [reflexivity | reflexivity | reflexivity | reflexivity
    | reflexivity | reflexivity
    | right; split; reflexivity
    | reflexivity | reflexivity | lia].
Defined.

(** *** The inline switch *)

(** An inline switch to native mode while a composition is in progress and
    a subscription is installed: the subscription is cancelled and none is
    installed in its place. *)
Lemma inline_switch_to_native_installs_nothing :
  IsComposing (context Demo.subscribed) = true
  /\ connection_ Demo.subscribed = true
  /\ connection_
       (SwitchAsciiMode Demo.subscribed false kAsciiModeSwitchInline) <> true
  /\ calls_from (context Demo.subscribed)
       (context (SwitchAsciiMode Demo.subscribed false kAsciiModeSwitchInline))
       [CDisconnect; CSetOption "ascii_mode" false].
Proof. vm_compute. repeat split; discriminate. Qed.

Lemma inline_switch_subscription_witness :
  connection_ (SwitchAsciiMode Demo.composing true kAsciiModeSwitchInline)
  = true
  /\ connection_ (SwitchAsciiMode Demo.subscribed false kAsciiModeSwitchInline)
     = false.
Proof.
  split.
  - apply (inline_switch_subscription Demo.composing true). reflexivity.
  - apply (inline_switch_subscription Demo.subscribed false). reflexivity.
Defined.

(** *** Two presses of Caps_Lock *)

(** Caps lock is on when the first press of Caps_Lock arrives, so that its
    caps flag is asserted and that of the second press is clear: ascii_mode,
    false before the two presses, is true after them. *)
Lemma caps_lock_twice_changes_ascii_mode :
  good_old_caps_lock_ Demo.idle = true
  /\ caps_lock_switch_style_ Demo.idle <> kAsciiModeSwitchNoop
  /\ caps (Demo.press XK_Caps_Lock kLockMask) = true
  /\ caps (Demo.press XK_Caps_Lock 0) = false
  /\ get_option (context Demo.idle) "ascii_mode" = false
  /\ get_option
       (context
          (snd (process_two Demo.idle
                  1000 (Demo.press XK_Caps_Lock kLockMask)
                  2000 (Demo.press XK_Caps_Lock 0))))
       "ascii_mode" <> get_option (context Demo.idle) "ascii_mode".
Proof. vm_compute. repeat split; discriminate. Qed.

Lemma caps_lock_twice_restores_ascii_mode_witness :
  get_option
    (context
       (snd (process_two Demo.idle
               1000 (Demo.press XK_Caps_Lock 0)
               2000 (Demo.press XK_Caps_Lock kLockMask))))
    "ascii_mode" = get_option (context Demo.idle) "ascii_mode".
Proof.
  pose proof (caps_lock_twice_restores_ascii_mode Demo.idle 1000 2000
                (Demo.press XK_Caps_Lock 0)
                (Demo.press XK_Caps_Lock kLockMask)) as Htwice.
  destruct (process_two _ _ _ _ _) as [[st1 r] st2].
  apply Htwice;
    [reflexivity | discriminate | reflexivity | reflexivity | reflexivity
    | reflexivity | reflexivity | reflexivity | reflexivity
    | left; reflexivity].
Defined.

(** *** The tap of the left shift key *)

(** A tap of the left shift key while caps lock is on, the release 100 ms
    after the press: the key is bound, the press and the release are no
    chord and ctrl is neither held nor tracked, yet ascii_mode is not
    toggled and no call is made. *)
Lemma left_shift_tap_under_caps_lock_toggles_nothing :
  is_Some (bindings_ Demo.idle !! XK_Shift_L)
  /\ is_chord (Demo.press XK_Shift_L kLockMask) = false
  /\ is_chord (Demo.release_of XK_Shift_L (Z.lor kLockMask kShiftMask)) = false
  /\ ctrl_key_pressed_ Demo.idle = false
  /\ get_option
       (context
          (snd (process_two Demo.idle
                  1000 (Demo.press XK_Shift_L kLockMask)
                  1100 (Demo.release_of XK_Shift_L
                          (Z.lor kLockMask kShiftMask)))))
       "ascii_mode"
     <> negb (get_option (context Demo.idle) "ascii_mode")
  /\ calls
       (context
          (snd (process_two Demo.idle
                  1000 (Demo.press XK_Shift_L kLockMask)
                  1100 (Demo.release_of XK_Shift_L
                          (Z.lor kLockMask kShiftMask)))))
     = calls (context Demo.idle).
Proof.
  split; [by eexists; vm_compute|].
  vm_compute. repeat split; discriminate.
Qed.

Lemma left_shift_tap_toggles_once_witness :
  get_option
    (context
       (snd (process_two Demo.idle
               1000 (Demo.press XK_Shift_L 0)
               1100 (Demo.release_of XK_Shift_L kShiftMask))))
    "ascii_mode" = negb (get_option (context Demo.idle) "ascii_mode")
  /\ context
       (snd (process_two Demo.idle
               1000 (Demo.press XK_Shift_L 0)
               1600 (Demo.release_of XK_Shift_L kShiftMask)))
     = context Demo.idle.
Proof.
  split.
  - pose proof (left_shift_tap_toggles_once Demo.idle 1000 1100
                  (Demo.press XK_Shift_L 0)
                  (Demo.release_of XK_Shift_L kShiftMask)) as Htap.
    destruct (process_two _ _ _ _ _) as [[st1 r] st2].
    apply Htap;
      [reflexivity | reflexivity | reflexivity | reflexivity
      | reflexivity | reflexivity
      | right; split; reflexivity
      | reflexivity | reflexivity
      | eexists; vm_compute; reflexivity | lia].
  - pose proof (left_shift_tap_toggles_once Demo.idle 1000 1600
                  (Demo.press XK_Shift_L 0)
                  (Demo.release_of XK_Shift_L kShiftMask)) as Htap.
    destruct (process_two _ _ _ _ _) as [[st1 r] st2].
    apply Htap;
      [reflexivity | reflexivity | reflexivity | reflexivity
      | reflexivity | reflexivity
      | right; split; reflexivity
      | reflexivity | reflexivity | lia].
Defined.

(** *** The temporary-ASCII machine and the caps flag *)

Lemma temp_ascii_on_composing_is_ignored_witness :
  TempAsciiProcess (context Demo.composing) (Demo.press XK_Return 0)
  = (kNoop, context Demo.composing).
Proof.
  apply temp_ascii_on_composing_is_ignored;
    [reflexivity | reflexivity | reflexivity | discriminate | discriminate].
Defined.

Lemma temp_ascii_off_idle_witness :
  TempAsciiProcess (context Demo.idle) (Demo.press 34 kShiftMask)
  = (kNoop, context Demo.idle)
  /\ TempAsciiProcess (context Demo.idle) (Demo.press 97 0)
     = (kNoop, context Demo.idle)
  /\ TempAsciiProcess (context Demo.idle) (Demo.press 65 kShiftMask)
     = (kRejected, TempAsciiOn (context Demo.idle)).
Proof.
  split; [|split].
  - pose proof (temp_ascii_off_idle (context Demo.idle)
                  (Demo.press 34 kShiftMask)) as Hquote.
    apply Hquote;
      [reflexivity | reflexivity | reflexivity | discriminate | discriminate
      | intros [Hspace _]; discriminate Hspace | reflexivity].
  - pose proof (temp_ascii_off_idle (context Demo.idle) (Demo.press 97 0)
                  ltac:(reflexivity) ltac:(reflexivity) ltac:(reflexivity)
                  ltac:(discriminate) ltac:(discriminate)
                  ltac:(intros [Hspace _]; discriminate Hspace))
      as (Hignored & _).
    apply Hignored. left. simpl. lia.
  - pose proof (temp_ascii_off_idle (context Demo.idle)
                  (Demo.press 65 kShiftMask)
                  ltac:(reflexivity) ltac:(reflexivity) ltac:(reflexivity)
                  ltac:(discriminate) ltac:(discriminate)
                  ltac:(intros [Hspace _]; discriminate Hspace))
      as (_ & _ & Henters).
    apply Henters;
      [simpl; lia | simpl; lia
      | rewrite list_elem_of_In; simpl; lia
      | rewrite list_elem_of_In; simpl; lia].
Defined.

Lemma return_with_empty_latest_text_witness :
  TempAsciiProcess (Demo.new_context false false Demo.typed [])
    (Demo.press XK_Return 0)
  = (kNoop, TempAsciiOn (Demo.new_context false false Demo.typed [])).
Proof.
  apply return_with_empty_latest_text;
    [reflexivity | reflexivity | reflexivity | reflexivity | reflexivity].
Defined.

Lemma caps_asserted_key_is_rejected_witness :
  ProcessKeyEvent Demo.idle 1000 (Demo.press XK_Shift_L kLockMask)
  = (kRejected, Demo.idle).
Proof.
  apply caps_asserted_key_is_rejected;
    [discriminate | reflexivity | reflexivity | discriminate
    | reflexivity | reflexivity | reflexivity].
Defined.

(** *** The commit history and the binding table *)

Lemma temp_ascii_change_clears_commit_history_witness :
  commit_history (TempAsciiOff (TempAsciiOn (context Demo.composing))) = []
  /\ commit_history
       (snd (TempAsciiProcess (Demo.new_context false false [] ["abc"])
               (Demo.press 65 kShiftMask))) = [].
Proof.
  split.
  - apply temp_ascii_change_clears_commit_history.
  - apply temp_ascii_change_clears_commit_history. vm_compute. discriminate.
Defined.


(** *** Runs *)

Lemma run_tracks_at_most_one_witness :
  tracks_at_most_one (process_all Demo.idle Demo.keystrokes).
Proof. apply run_tracks_at_most_one. reflexivity. Defined.

Lemma run_sets_two_options_only_witness :
  exists l,
    calls_from (context Demo.idle)
      (context (process_all Demo.idle Demo.keystrokes)) l
    /\ count_sets "soft_cursor" l = 0%nat.
Proof. apply run_sets_two_options_only; discriminate. Defined.

(** *** Modifier keys *)

Lemma modifier_press_first_key_wins_witness :
  get_option
    (context (snd (ProcessKeyEvent Demo.composing 1000
                     (Demo.press XK_Control_L 0))))
    "temp_ascii" = false
  /\ snd (ProcessKeyEvent Demo.shift_down 1100
            (Demo.press XK_Control_L kShiftMask)) = Demo.shift_down.
Proof.
  split.
  - pose proof (modifier_press_first_key_wins Demo.composing 1000
                  (Demo.press XK_Control_L 0)
                  ltac:(reflexivity) ltac:(right; reflexivity)
                  ltac:(reflexivity) ltac:(reflexivity))
      as (_ & _ & _ & Hfirst).
    destruct (Hfirst ltac:(reflexivity)) as (_ & _ & _ & _ & Hctrl).
    apply (Hctrl ltac:(reflexivity)).
  - pose proof (modifier_press_first_key_wins Demo.shift_down 1100
                  (Demo.press XK_Control_L kShiftMask)
                  ltac:(reflexivity) ltac:(right; reflexivity)
                  ltac:(reflexivity) ltac:(reflexivity))
      as (_ & _ & Hsecond & _).
    apply Hsecond. reflexivity.
Defined.

Lemma release_without_matching_press_witness :
  context (snd (ProcessKeyEvent Demo.shift_down 1100
                  (Demo.release_of XK_Control_L 0)))
  = context Demo.shift_down.
Proof.
  apply (release_without_matching_press Demo.shift_down 1100
           (Demo.release_of XK_Control_L 0));
    [reflexivity | right; reflexivity | reflexivity | reflexivity
    | reflexivity | reflexivity].
Defined.

Lemma modifier_tap_follows_binding_witness :
  get_option
    (context (snd (ProcessKeyEvent Demo.shift_down 1100
                     (Demo.release_of XK_Shift_L kShiftMask))))
    "ascii_mode" = true
  /\ snd (ProcessKeyEvent Demo.ctrl_down 1100
            (Demo.release_of XK_Control_L kControlMask))
     = set_key_pressed false false (with_context TempAsciiOff Demo.ctrl_down).
Proof.
  split.
  - pose proof (modifier_tap_follows_binding Demo.shift_down 1100
                  (Demo.release_of XK_Shift_L kShiftMask)
                  ltac:(reflexivity) ltac:(right; reflexivity)
                  ltac:(reflexivity) ltac:(discriminate)
                  ltac:(reflexivity) ltac:(reflexivity) ltac:(reflexivity))
      as (_ & _ & _ & _ & Hbound).
    apply (Hbound kAsciiModeSwitchInline). reflexivity.
  - pose proof (modifier_tap_follows_binding Demo.ctrl_down 1100
                  (Demo.release_of XK_Control_L kControlMask)
                  ltac:(reflexivity) ltac:(right; reflexivity)
                  ltac:(reflexivity) ltac:(discriminate)
                  ltac:(reflexivity) ltac:(reflexivity) ltac:(reflexivity))
      as (_ & _ & _ & Hunbound & _).
    apply Hunbound. reflexivity.
Defined.

Lemma other_key_press_cancels_tap_witness :
  ProcessKeyEvent
    (snd (ProcessKeyEvent Demo.shift_down 1050 (Demo.press 97 kShiftMask)))
    1100 (Demo.release_of XK_Shift_L kShiftMask)
  = (kNoop,
     snd (ProcessKeyEvent Demo.shift_down 1050 (Demo.press 97 kShiftMask))).
Proof.
  apply (other_key_press_cancels_tap Demo.shift_down 1050 1100
           (Demo.press 97 kShiftMask)
           (Demo.release_of XK_Shift_L kShiftMask));
    [reflexivity | reflexivity | right; right; reflexivity
    | reflexivity | reflexivity | reflexivity | right; reflexivity].
Defined.

Lemma eisu_toggle_key_witness :
  get_option
    (context (snd (ProcessKeyEvent Demo.idle 1000
                     (Demo.press XK_Eisu_toggle 0))))
    "ascii_mode" = true
  /\ ProcessKeyEvent Demo.idle 1000 (Demo.release_of XK_Eisu_toggle 0)
     = (kRejected, Demo.idle).
Proof.
  pose proof (eisu_toggle_key Demo.idle 1000 (Demo.press XK_Eisu_toggle 0)
                ltac:(reflexivity) ltac:(reflexivity)
                ltac:(right; reflexivity)) as (_ & Hpress).
  pose proof (eisu_toggle_key Demo.idle 1000
                (Demo.release_of XK_Eisu_toggle 0)
                ltac:(reflexivity) ltac:(reflexivity)
                ltac:(right; reflexivity)) as (Hrelease & _).
  split.
  - destruct (Hpress ltac:(reflexivity)) as (_ & _ & _ & _ & Hbound).
    apply Hbound. eexists. vm_compute. reflexivity.
  - apply Hrelease. reflexivity.
Defined.

(** *** ASCII mode and caps lock *)

Lemma ascii_mode_commits_or_edits_inline_witness :
  ProcessKeyEvent Demo.idle_ascii 1000 (Demo.press 97 0)
  = (kRejected, set_key_pressed false false Demo.idle_ascii)
  /\ fst (ProcessKeyEvent Demo.composing 1000 (Demo.press 97 0)) = kAccepted.
Proof.
  split.
  - apply (ascii_mode_commits_or_edits_inline Demo.idle_ascii 1000
             (Demo.press 97 0));
      [reflexivity | right; split; [discriminate | reflexivity]
      | discriminate | reflexivity | reflexivity | reflexivity].
  - apply (ascii_mode_commits_or_edits_inline Demo.composing 1000
             (Demo.press 97 0));
      [reflexivity | right; split; [discriminate | reflexivity]
      | discriminate | reflexivity | reflexivity
      | reflexivity | reflexivity | simpl; lia].
Defined.

Lemma caps_ignored_commits_inverted_case_witness :
  ProcessKeyEvent Demo.ignoring_caps 1000 (Demo.press 97 kLockMask)
  = (kAccepted, with_context (CommitText "A") Demo.ignoring_caps)
  /\ ProcessKeyEvent Demo.ignoring_caps 1000 (Demo.press 53 kLockMask)
     = (kRejected, Demo.ignoring_caps).
Proof.
  split.
  - apply (caps_ignored_commits_inverted_case Demo.ignoring_caps 1000
             (Demo.press 97 kLockMask));
      [discriminate | reflexivity | reflexivity | discriminate
      | reflexivity | reflexivity | reflexivity | reflexivity].
  - apply (caps_ignored_commits_inverted_case Demo.ignoring_caps 1000
             (Demo.press 53 kLockMask));
      [discriminate | reflexivity | reflexivity | discriminate
      | reflexivity | right; right; reflexivity].
Defined.

Lemma caps_lock_sets_mode_from_caps_flag_witness :
  get_option
    (context (snd (ProcessKeyEvent Demo.idle 1000
                     (Demo.press XK_Caps_Lock 0))))
    "ascii_mode" = true
  /\ ProcessKeyEvent Demo.idle_ascii 1000 (Demo.press XK_Caps_Lock 0)
     = (kRejected, set_key_pressed false false Demo.idle_ascii).
Proof.
  split.
  - apply (caps_lock_sets_mode_from_caps_flag Demo.idle 1000
             (Demo.press XK_Caps_Lock 0));
      [discriminate | reflexivity | reflexivity | reflexivity | reflexivity].
  - apply (caps_lock_sets_mode_from_caps_flag Demo.idle_ascii 1000
             (Demo.press XK_Caps_Lock 0));
      [discriminate | reflexivity | reflexivity | reflexivity | reflexivity].
Defined.

Lemma caps_lock_yields_to_other_toggle_witness :
  ProcessKeyEvent (snd (ToggleAsciiModeWithKey Demo.idle XK_Shift_L)) 1000
    (Demo.press XK_Caps_Lock 0)
  = (kRejected,
     set_key_pressed false false
       (snd (ToggleAsciiModeWithKey Demo.idle XK_Shift_L))).
Proof.
  apply (caps_lock_yields_to_other_toggle Demo.idle XK_Shift_L 1000
           (Demo.press XK_Caps_Lock 0));
    [eexists; vm_compute; reflexivity | discriminate | reflexivity
    | reflexivity | discriminate | reflexivity | reflexivity | reflexivity].
Defined.

Lemma toggle_twice_restores_ascii_mode_witness :
  get_option
    (context
       (snd (ToggleAsciiModeWithKey
               (snd (ToggleAsciiModeWithKey Demo.composing XK_Shift_R))
               XK_Shift_R)))
    "ascii_mode" = get_option (context Demo.composing) "ascii_mode"
  /\ ToggleAsciiModeWithKey Demo.idle XK_Control_L = (false, Demo.idle).
Proof.
  split.
  - apply (toggle_twice_restores_ascii_mode Demo.composing XK_Shift_R).
    eexists. vm_compute. reflexivity.
  - apply (toggle_twice_restores_ascii_mode Demo.idle XK_Control_L).
    reflexivity.
Defined.

(** *** The mode switch and the configuration *)

Lemma mode_switch_effect_witness :
  connection_ (SwitchAsciiMode Demo.subscribed true kAsciiModeSwitchClear)
  = false
  /\ SwitchAsciiMode Demo.idle true kAsciiModeSwitchClear
     = with_context (set_option "ascii_mode" true) Demo.idle.
Proof.
  split.
  - apply (mode_switch_effect Demo.subscribed true kAsciiModeSwitchClear).
    reflexivity.
  - apply (mode_switch_effect Demo.idle true kAsciiModeSwitchClear).
    reflexivity.
Defined.

Lemma load_config_settings_witness :
  caps_lock_switch_style_
    (LoadConfig Demo.idle
       (Some (mkConfig None
                (Some [("Caps_Lock", ConfigValue "inline_ascii")]))) None)
  = kAsciiModeSwitchClear.
Proof.
  apply (load_config_settings Demo.idle
           (Some (mkConfig None
                    (Some [("Caps_Lock", ConfigValue "inline_ascii")]))) None
           ) with (style := kAsciiModeSwitchInline).
  reflexivity.
Defined.

Lemma schema_settings_take_precedence_witness :
  bindings_
    (LoadConfig Demo.idle (Some (mkConfig None (Some [])))
       (Some Demo.config)) = ∅
  /\ good_old_caps_lock_
       (LoadConfig Demo.idle (Some (mkConfig None (Some [])))
          (Some Demo.config)) = true.
Proof.
  pose proof (schema_settings_take_precedence Demo.idle
                (mkConfig None (Some [])) (Some Demo.config))
    as (_ & Hempty & _ & _ & Hflag & _).
  split.
  - apply Hempty. reflexivity.
  - apply (Hflag ltac:(reflexivity) Demo.config). reflexivity.
Defined.

(** *** The temporary-ASCII machine, further *)

Lemma temp_ascii_machine_frame_witness :
  get_option
    (snd (TempAsciiProcess (context Demo.idle) (Demo.press 65 kShiftMask)))
    "temp_ascii" = true.
Proof.
  apply (temp_ascii_machine_frame (context Demo.idle)
           (Demo.press 65 kShiftMask)).
  reflexivity.
Defined.

Lemma temp_ascii_on_idle_witness :
  TempAsciiProcess (Demo.new_context false true [] []) (Demo.press XK_space 0)
  = (kNoop, TempAsciiOff (Demo.new_context false true [] []))
  /\ TempAsciiProcess (Demo.new_context false true [] []) (Demo.press 46 0)
     = (kRejected, Demo.new_context false true [] [])
  /\ TempAsciiProcess (Demo.new_context false true [] []) (Demo.press 44 0)
     = (kNoop, TempAsciiOff (Demo.new_context false true [] [])).
Proof.
  pose proof (temp_ascii_on_idle (Demo.new_context false true [] [])
                (Demo.press XK_space 0)
                ltac:(reflexivity) ltac:(reflexivity) ltac:(reflexivity)
                ltac:(discriminate) ltac:(discriminate)
                ltac:(intros [_ Hshift]; discriminate Hshift))
    as (Hspace & _).
  pose proof (temp_ascii_on_idle (Demo.new_context false true [] [])
                (Demo.press 46 0)
                ltac:(reflexivity) ltac:(reflexivity) ltac:(reflexivity)
                ltac:(discriminate) ltac:(discriminate)
                ltac:(intros [Hkey _]; discriminate Hkey))
    as (_ & _ & Hstop).
  pose proof (temp_ascii_on_idle (Demo.new_context false true [] [])
                (Demo.press 44 0)
                ltac:(reflexivity) ltac:(reflexivity) ltac:(reflexivity)
                ltac:(discriminate) ltac:(discriminate)
                ltac:(intros [Hkey _]; discriminate Hkey))
    as (Hcomma & _).
  split; [|split].
  - apply Hspace. left. reflexivity.
  - apply Hstop. rewrite list_elem_of_In. simpl. lia.
  - apply Hcomma. right. right. rewrite list_elem_of_In. simpl. lia.
Defined.

Lemma temp_ascii_off_composing_witness :
  TempAsciiProcess (Demo.new_context false false Demo.typed ["abc"])
    (Demo.press XK_Return 0)
  = (kNoop, TempAsciiOn (Demo.new_context false false Demo.typed ["abc"])).
Proof.
  apply (temp_ascii_off_composing
           (Demo.new_context false false Demo.typed ["abc"])
           (Demo.press XK_Return 0));
    [reflexivity | reflexivity | reflexivity | discriminate | discriminate
    | reflexivity | ].
  simpl. repeat constructor; discriminate.
Defined.

Lemma entering_key_pressed_again_witness :
  TempAsciiProcess (TempAsciiOn (context Demo.idle)) (Demo.press 65 kShiftMask)
  = (kRejected, TempAsciiOn (context Demo.idle)).
Proof.
  apply (entering_key_pressed_again (context Demo.idle)
           (Demo.press 65 kShiftMask));
    [reflexivity | reflexivity | reflexivity
    | intros [Hspace _]; discriminate Hspace
    | reflexivity | reflexivity | reflexivity | discriminate].
Defined.
